(** * ERC-4337 / EIP-7702 account contracts: EIP7702Delegate.sol and Paymaster.sol

    A shallow embedding of the two Solidity contracts of the repository and
    the properties of their batch execution, session keys and gas
    sponsorship.

    Conventions of the embedding:
    - [uint256], [address] and [bytes32] values are integers in [Z]; Solidity
      0.8 arithmetic is checked, so an overflowing [++] or [+=] is a
      [Panic 0x11] revert and never a wrap-around;
    - a Solidity [mapping] is a [gmap] read through a default (the zero
      value of the value type), as every key of a mapping is readable;
    - a function call either returns a value together with the new state or
      reverts with a [Failure]; a reverted call leaves the state it was
      entered with (the caller keeps the state it had before the call);
    - the code behind [target.call{value: v}(data)] is not part of the
      contract: it is an [Ext] tree, which may re-enter the contract any
      number of times before it finishes. *)

From Stdlib Require Import ZArith Lia.
From stdpp Require Import base option list gmap strings.

Local Open Scope Z_scope.

(** ** Solidity values and reverts *)

Abbreviation address := Z (only parsing).
Abbreviation uint256 := Z (only parsing).
Abbreviation bytes32 := Z (only parsing).
Abbreviation bytes := (list Byte.byte) (only parsing).

Definition MAX_UINT256 : Z := 2 ^ 256 - 1.
Definition MAX_ADDRESS : Z := 2 ^ 160 - 1.

Definition is_uint256 (x : Z) : Prop := 0 <= x <= MAX_UINT256.

(** What a reverting call hands back to its caller. *)
Inductive Failure : Type :=
| Error (reason : string)                      (* require(cond, reason) *)
| Panic (code : Z)                             (* checked arithmetic: 0x11 *)
| OwnableUnauthorizedAccount (account : address)
| OwnableInvalidOwner (owner : address)
| RevertData (data : bytes).                   (* revert(ptr, len), bubbled data *)

Inductive Result (A : Type) : Type :=
| Ok (a : A)
| Reverted (f : Failure).
Arguments Ok {A} a.
Arguments Reverted {A} f.

Definition bind {A B : Type} (r : Result A) (k : A -> Result B) : Result B :=
  match r with
  | Ok a => k a
  | Reverted f => Reverted f
  end.

Definition require (cond : bool) (reason : string) : Result unit :=
  if cond then Ok tt else Reverted (Error reason).

(** [x + y] on uint256, as Solidity 0.8 compiles it. *)
Definition checked_add (x y : uint256) : Result uint256 :=
  if x + y <=? MAX_UINT256 then Ok (x + y) else Reverted (Panic 17).

Declare Scope sol_scope.
Delimit Scope sol_scope with sol.
Notation "x <- e ;; k" := (bind e (fun x => k))
  (at level 100, e at next level, right associativity) : sol_scope.
Notation "e ;;; k" := (bind e (fun _ => k))
  (at level 100, right associativity) : sol_scope.
Local Open Scope sol_scope.

(** The state a transaction leaves behind: the state reached on success,
    the state it started from on a revert. *)
Definition commit {S : Type} (before : S) (r : Result S) : S :=
  match r with
  | Ok after => after
  | Reverted _ => before
  end.

(** Reading a Solidity mapping: an absent key reads as the zero value. *)
Definition mapping_get `{Countable K} {V : Type} (zero : V) (m : gmap K V) (k : K) : V :=
  default zero (m !! k).

(** ** EIP7702Delegate.sol *)
Module Delegate.

Record Call : Type := mkCall {
  target : address;
  value : uint256;
  data : bytes
}.

Record SessionKey : Type := mkSessionKey {
  validUntil : uint256;
  maxValue : uint256;
  isActive : bool
}.

(** The value of a [sessionKeys] slot that was never written. *)
Definition zeroSessionKey : SessionKey :=
  {| validUntil := 0; maxValue := 0; isActive := false |}.

Inductive Event : Type :=
| BatchExecuted (account : address) (nonce : uint256)
| SessionKeyAdded (account sessionKey : address) (validUntil : uint256).

Record Storage : Type := mkStorage {
  nonces : gmap Z Z;
  sessionKeys : gmap Z (gmap Z SessionKey)
}.

(** The transaction-wide part of the execution environment. *)
Record Env : Type := mkEnv {
  this : address;             (* address(this) *)
  tx_origin : address;        (* tx.origin *)
  block_timestamp : uint256   (* block.timestamp *)
}.

(** The external functions of the contract. *)
Inductive Invocation : Type :=
| ExecuteBatch (calls : list Call)
| AddSessionKey (sessionKey : address) (validUntil maxValue : uint256)
| ExecuteWithSessionKey (target : address) (value : uint256) (data : bytes)
| IsValidSessionKey (sessionKey account : address)
| RevokeSessionKey (sessionKey : address)
| Receive
| GetNonce (account : address)
| Nonces (account : address)
| SessionKeys (account sessionKey : address).

Inductive Returned : Type :=
| RUnit
| RBool (b : bool)
| RUint (n : uint256)
| RSessionKey (k : SessionKey).

Section Semantics.
(** Everything on the chain outside this contract's storage and log:
    balances, other contracts. *)
Context {W : Type}.

Record Chain : Type := mkChain {
  storage : Storage;
  logs : list Event;
  world : W
}.

(** What the code at a call's target does: it changes the world, may call
    back into this contract (as any [sender], the account itself included,
    seeing the result), and in the end returns or reverts with some data. *)
Inductive Ext : Type :=
| Finish (success : bool) (result : bytes) (w : W)
| Reenter (sender : address) (f : Invocation) (w : W)
          (k : Result Returned -> W -> Ext).

Definition Handler : Type :=
  address -> Invocation -> Chain -> Result (Returned * Chain).

Variable extern : Env -> address -> uint256 -> bytes -> W -> Ext.

Definition set_world (w : W) (c : Chain) : Chain :=
  {| storage := storage c; logs := logs c; world := w |}.

Definition set_storage (s : Storage) (c : Chain) : Chain :=
  {| storage := s; logs := logs c; world := world c |}.

Definition emit (e : Event) (c : Chain) : Chain :=
  {| storage := storage c; logs := logs c ++ [e]; world := world c |}.

Definition nonce_of (c : Chain) (account : address) : uint256 :=
  mapping_get 0 (nonces (storage c)) account.

Definition key_of (c : Chain) (account sessionKey : address) : SessionKey :=
  mapping_get zeroSessionKey
    (mapping_get ∅ (sessionKeys (storage c)) account) sessionKey.

Definition write_nonce (account : address) (n : uint256) (c : Chain) : Chain :=
  set_storage {| nonces := <[account := n]> (nonces (storage c));
                 sessionKeys := sessionKeys (storage c) |} c.

Definition write_key (account sessionKey : address) (k : SessionKey)
    (c : Chain) : Chain :=
  set_storage
    {| nonces := nonces (storage c);
       sessionKeys :=
         <[account := <[sessionKey := k]>
                        (mapping_get ∅ (sessionKeys (storage c)) account)]>
           (sessionKeys (storage c)) |} c.

Section Frame.
(** How a call back into the contract is served (one call level
    deeper). *)
Variable reenter : Handler.
Variable env : Env.

(** Runs the code of a call's target against the contract. A re-entrant
    call that reverts leaves the state it was entered with. *)
Fixpoint run_ext (e : Ext) (c : Chain) : bool * bytes * Chain :=
  match e with
  | Finish success result w => (success, result, set_world w c)
  | Reenter sender f w k =>
      match reenter sender f (set_world w c) with
      | Ok (r, c') => run_ext (k (Ok r) (world c')) c'
      | Reverted err => run_ext (k (Reverted err) w) (set_world w c)
      end
  end.

(** [target.call{value: value}(data)]: a failed call changes nothing. *)
Definition call (target : address) (value : uint256) (data : bytes)
    (c : Chain) : bool * bytes * Chain :=
  let '(success, result, c') :=
    run_ext (extern env target value data (world c)) c in
  if success then (true, result, c') else (false, result, c).

(** modifier onlyDelegatingAccount *)
Definition onlyDelegatingAccount (msg_sender : address) : Result unit :=
  require (msg_sender =? this env) "Not delegating account".

(** function isValidSessionKey(address sessionKey, address account) *)
Definition isValidSessionKey (sessionKey account : address) (c : Chain) : bool :=
  let key := key_of c account sessionKey in
  isActive key && (block_timestamp env <=? validUntil key).

(** modifier onlyAccountOrSession *)
Definition onlyAccountOrSession (msg_sender : address) (c : Chain) : Result unit :=
  require
    ((tx_origin env =? msg_sender)
     || isValidSessionKey msg_sender (tx_origin env) c)
    "Unauthorized".

(** The loop of [executeBatch]: the calls in order, stopping at the
    first failure with the failing call's own revert data. *)
Fixpoint run_calls (calls : list Call) (c : Chain) : Result Chain :=
  match calls with
  | [] => Ok c
  | cl :: rest =>
      let '(success, result, c') := call (target cl) (value cl) (data cl) c in
      if success then run_calls rest c' else Reverted (RevertData result)
  end.

(** function executeBatch(Call[] calldata calls) *)
Definition executeBatch (msg_sender : address) (calls : list Call)
    (c : Chain) : Result Chain :=
  onlyDelegatingAccount msg_sender ;;;
  let currentNonce := nonce_of c msg_sender in
  next <- checked_add currentNonce 1 ;;
  c' <- run_calls calls (write_nonce msg_sender next c) ;;
  Ok (emit (BatchExecuted msg_sender currentNonce) c').

(** function addSessionKey(address, uint256, uint256) *)
Definition addSessionKey (msg_sender sessionKey : address)
    (validUntil maxValue : uint256) (c : Chain) : Result Chain :=
  onlyDelegatingAccount msg_sender ;;;
  Ok (emit (SessionKeyAdded msg_sender sessionKey validUntil)
        (write_key msg_sender sessionKey
           {| validUntil := validUntil; maxValue := maxValue;
              isActive := true |} c)).

(** function executeWithSessionKey(address, uint256, bytes) *)
Definition executeWithSessionKey (msg_sender target : address)
    (value : uint256) (data : bytes) (c : Chain) : Result Chain :=
  onlyAccountOrSession msg_sender c ;;;
  let account := tx_origin env in
  let sessionKey := key_of c account msg_sender in
  require (isActive sessionKey) "Session key not active" ;;;
  require (block_timestamp env <=? validUntil sessionKey)
    "Session key expired" ;;;
  require (value <=? maxValue sessionKey) "Value exceeds session limit" ;;;
  let '(success, result, c') := call target value data c in
  if success then Ok c' else Reverted (RevertData result).

(** function revokeSessionKey(address sessionKey) *)
Definition revokeSessionKey (msg_sender sessionKey : address)
    (c : Chain) : Result Chain :=
  onlyDelegatingAccount msg_sender ;;;
  let old := key_of c msg_sender sessionKey in
  Ok (write_key msg_sender sessionKey
        {| validUntil := validUntil old; maxValue := maxValue old;
           isActive := false |} c).

(** function getNonce(address account) *)
Definition getNonce (account : address) (c : Chain) : uint256 :=
  nonce_of c account.

(** The contract seen from a caller: one external function is run. The
    ether sent along with the call belongs to the world and is not looked
    at here. *)
Definition dispatch : Handler := fun msg_sender f c =>
  match f with
  | ExecuteBatch calls =>
      c' <- executeBatch msg_sender calls c ;; Ok (RUnit, c')
  | AddSessionKey k until cap =>
      c' <- addSessionKey msg_sender k until cap c ;; Ok (RUnit, c')
  | ExecuteWithSessionKey t v d =>
      c' <- executeWithSessionKey msg_sender t v d c ;; Ok (RUnit, c')
  | IsValidSessionKey k account => Ok (RBool (isValidSessionKey k account c), c)
  | RevokeSessionKey k =>
      c' <- revokeSessionKey msg_sender k c ;; Ok (RUnit, c')
  | Receive => Ok (RUnit, c)
  | GetNonce account => Ok (RUint (getNonce account c), c)
  | Nonces account => Ok (RUint (nonce_of c account), c)
  | SessionKeys account k => Ok (RSessionKey (key_of c account k), c)
  end.
End Frame.

(** The contract at a given remaining call depth: a call made when no
    depth is left fails, as the EVM's call-depth limit has it. *)
Fixpoint entry (depth : nat) (env : Env) : Handler :=
  match depth with
  | O => fun _ _ _ => Reverted (RevertData [])
  | S d => dispatch (entry d env) env
  end.

(** A message call from outside, with the state it leaves behind. *)
Definition transact (depth : nat) (env : Env) (msg_sender : address)
    (f : Invocation) (c : Chain) : Chain :=
  commit c (r <- entry depth env msg_sender f c ;; Ok (snd r)).

(** The state of a freshly delegated account. *)
Definition genesis (w : W) : Chain :=
  {| storage := {| nonces := ∅; sessionKeys := ∅ |}; logs := []; world := w |}.

(** States the storage of the account [self] can be in: any number of
    message calls (each committed or reverted) with the world changing freely
    in between. *)
Inductive reachable (self : address) : Chain -> Prop :=
| reach_genesis w : reachable self (genesis w)
| reach_world c w : reachable self c -> reachable self (set_world w c)
| reach_call c depth env msg_sender f :
    this env = self ->
    reachable self c -> reachable self (transact depth env msg_sender f c).

(** The number of completed batches of an account on record. *)
Fixpoint count_batches (account : address) (l : list Event) : Z :=
  match l with
  | [] => 0
  | BatchExecuted a _ :: rest =>
      (if a =? account then 1 else 0) + count_batches account rest
  | _ :: rest => count_batches account rest
  end.

(** [c'] continues [c]: its log extends the log of [c], and every account's
    nonce has advanced by the number of batches the extension records for
    that account. *)
Definition advances (c c' : Chain) : Prop :=
  exists new,
    logs c' = logs c ++ new /\
    forall account, nonce_of c' account = nonce_of c account + count_batches account new.

(** The target of no call ever calls back into the contract. *)
Definition passive : Prop :=
  forall env t v d w, exists success result w',
    extern env t v d w = Finish success result w'.
End Semantics.
End Delegate.


(** ** ABI encoding of an address *)

Definition byte_of_Z (z : Z) : Byte.byte :=
  default Byte.x00 (Byte.of_N (Z.to_N (z mod 256))).

Definition Z_of_byte (b : Byte.byte) : Z := Z.of_N (Byte.to_N b).

(** The [n] low bytes of [x], most significant first. *)
Fixpoint be_encode (n : nat) (x : Z) : list Byte.byte :=
  match n with
  | O => []
  | S n' => be_encode n' (x / 256) ++ [byte_of_Z x]
  end.

Definition be_decode (bs : list Byte.byte) : Z :=
  fold_left (fun acc b => acc * 256 + Z_of_byte b) bs 0.

(** [abi.encode(a)] for an address: one 32-byte word. *)
Definition abi_encode_address (a : address) : list Byte.byte := be_encode 32 a.

(** [abi.decode(data, (address))]: reads the first word and reverts on short
    data or on a word that is no address. *)
Definition abi_decode_address (data : list Byte.byte) : Result address :=
  if (length data <? 32)%nat then Reverted (RevertData [])
  else
    let word := be_decode (take 32 data) in
    if word <=? MAX_ADDRESS then Ok word else Reverted (RevertData []).

(** ** Paymaster.sol *)
Module Paymaster.

Definition MAX_GAS_LIMIT : uint256 := 10000000.
Definition MAX_FEE_PER_GAS : uint256 := 100 * 10 ^ 9.

(** PackedUserOperation of the imported account-abstraction interfaces, with
    the fields the scripts of the repository build it from. *)
Record PackedUserOperation : Type := mkUserOp {
  sender : address;
  nonce : uint256;
  initCode : list Byte.byte;
  callData : list Byte.byte;
  accountGasLimits : bytes32;
  preVerificationGas : uint256;
  gasFees : bytes32;
  paymasterAndData : list Byte.byte;
  signature : list Byte.byte
}.

(** Modelled from the spec: the PostOpMode enumeration belongs to the
    imported IPaymaster interface and is not part of the sources; [postOp]
    takes it and does not look at it. *)
Inductive PostOpMode : Type := opSucceeded | opReverted | postOpReverted.

Record State : Type := mkState {
  owner : address;                    (* Ownable._owner *)
  isShutdown : bool;
  entryPoint : address;
  accountFactory : address;
  accountGasUsage : gmap Z Z;
  sponsoredAccounts : gmap Z bool
}.

(** What one call sees of its surroundings. The EntryPoint and the owner's
    account are other contracts: the deposit the EntryPoint reports and the
    outcome of the one state-changing call a function makes to them are
    given by the environment. No function writes its state after such a
    call, so what the callee does to the paymaster meanwhile is a sequence of
    further calls. *)
Record Env : Type := mkEnv {
  msg_sender : address;
  entryPoint_balanceOf : uint256;     (* entryPoint.balanceOf(address(this)) *)
  external_call : Result unit         (* depositTo, withdrawTo or transfer *)
}.

Definition usage_of (st : State) (account : address) : uint256 :=
  mapping_get 0 (accountGasUsage st) account.

Definition sponsored (st : State) (account : address) : bool :=
  mapping_get false (sponsoredAccounts st) account.

Definition set_owner (o : address) (st : State) : State :=
  {| owner := o; isShutdown := isShutdown st; entryPoint := entryPoint st;
     accountFactory := accountFactory st;
     accountGasUsage := accountGasUsage st;
     sponsoredAccounts := sponsoredAccounts st |}.

Definition set_isShutdown (b : bool) (st : State) : State :=
  {| owner := owner st; isShutdown := b; entryPoint := entryPoint st;
     accountFactory := accountFactory st;
     accountGasUsage := accountGasUsage st;
     sponsoredAccounts := sponsoredAccounts st |}.

Definition set_usage (account : address) (n : uint256) (st : State) : State :=
  {| owner := owner st; isShutdown := isShutdown st; entryPoint := entryPoint st;
     accountFactory := accountFactory st;
     accountGasUsage := <[account := n]> (accountGasUsage st);
     sponsoredAccounts := sponsoredAccounts st |}.

Definition set_sponsored (account : address) (b : bool) (st : State) : State :=
  {| owner := owner st; isShutdown := isShutdown st; entryPoint := entryPoint st;
     accountFactory := accountFactory st;
     accountGasUsage := accountGasUsage st;
     sponsoredAccounts := <[account := b]> (sponsoredAccounts st) |}.

(** Modelled from the spec: the Ownable base contract is imported and not
    part of the sources; section 4.4 restricts the administrative operations
    to a single designated sponsor-administrator identity. [onlyOwner]
    rejects every other caller with an error of its own. *)
Definition onlyOwner (env : Env) (st : State) : Result unit :=
  if owner st =? msg_sender env then Ok tt
  else Reverted (OwnableUnauthorizedAccount (msg_sender env)).

(** Modelled from the spec: Ownable's hand-over of the administrator
    identity (the base contract is imported and not part of the sources). *)
Definition transferOwnership (env : Env) (newOwner : address) (st : State)
    : Result State :=
  onlyOwner env st ;;;
  if newOwner =? 0 then Reverted (OwnableInvalidOwner 0)
  else Ok (set_owner newOwner st).

(** Modelled from the spec: Ownable's renouncing of the administrator
    identity (the base contract is imported and not part of the sources). *)
Definition renounceOwnership (env : Env) (st : State) : Result State :=
  onlyOwner env st ;;;
  Ok (set_owner 0 st).

(** constructor(address _entryPoint, address _accountFactory) *)
Definition constructor (env : Env) (_entryPoint _accountFactory : address) : State :=
  {| owner := msg_sender env; isShutdown := false; entryPoint := _entryPoint;
     accountFactory := _accountFactory; accountGasUsage := ∅;
     sponsoredAccounts := ∅ |}.

(** modifier notShutdown *)
Definition notShutdown (st : State) : Result unit :=
  require (negb (isShutdown st)) "Paymaster is shut down".

(** function addSponsoredAccount(address account) *)
Definition addSponsoredAccount (env : Env) (account : address) (st : State)
    : Result State :=
  onlyOwner env st ;;;
  Ok (set_sponsored account true st).

(** function removeSponsoredAccount(address account) *)
Definition removeSponsoredAccount (env : Env) (account : address) (st : State)
    : Result State :=
  onlyOwner env st ;;;
  Ok (set_sponsored account false st).

(** function _parseGasFees(bytes32 packedFees): the high and the low half of
    the word. *)
Definition _parseGasFees (packedFees : bytes32) : uint256 * uint256 :=
  let maxFeePerGas := Z.shiftr packedFees 128 in
  let maxPriorityFeePerGas :=
    Z.shiftr (Z.land (Z.shiftl packedFees 128) MAX_UINT256) 128 in
  (maxFeePerGas, maxPriorityFeePerGas).
Arguments _parseGasFees : simpl never.

(** function validatePaymasterUserOp(userOp, userOpHash, maxCost) *)
Definition validatePaymasterUserOp (env : Env) (userOp : PackedUserOperation)
    (userOpHash : bytes32) (maxCost : uint256) (st : State)
    : Result (list Byte.byte * uint256) :=
  notShutdown st ;;;
  require (entryPoint st =? msg_sender env) "Invalid entry point" ;;;
  require (preVerificationGas userOp <=? MAX_GAS_LIMIT) "Gas limits too high" ;;;
  require (entryPoint_balanceOf env >=? maxCost) "Insufficient funds for gas" ;;;
  let '(maxFeePerGas, _) := _parseGasFees (gasFees userOp) in
  require (maxFeePerGas <=? MAX_FEE_PER_GAS) "Gas fee too high" ;;;
  require (sponsored st (sender userOp)) "Account not sponsored" ;;;
  let context := abi_encode_address (sender userOp) in
  Ok (context, 0).

(** function postOp(mode, context, actualGasCost, actualUserOpFeePerGas) *)
Definition postOp (env : Env) (mode : PostOpMode) (context : list Byte.byte)
    (actualGasCost actualUserOpFeePerGas : uint256) (st : State) : Result State :=
  notShutdown st ;;;
  require (entryPoint st =? msg_sender env) "Invalid entry point" ;;;
  userAccount <- abi_decode_address context ;;
  total <- checked_add (usage_of st userAccount) actualGasCost ;;
  Ok (set_usage userAccount total st).

(** function deposit() *)
Definition deposit (env : Env) (st : State) : Result State :=
  onlyOwner env st ;;;
  external_call env ;;;
  Ok st.

(** function getDeposit() *)
Definition getDeposit (env : Env) (st : State) : uint256 :=
  entryPoint_balanceOf env.

(** function withdrawFromEntryPoint(uint256 amount) *)
Definition withdrawFromEntryPoint (env : Env) (amount : uint256) (st : State)
    : Result State :=
  onlyOwner env st ;;;
  external_call env ;;;
  Ok st.

(** function withdraw() *)
Definition withdraw (env : Env) (st : State) : Result State :=
  onlyOwner env st ;;;
  notShutdown st ;;;
  external_call env ;;;
  Ok st.

(** function shutdown() *)
Definition shutdown (env : Env) (st : State) : Result State :=
  onlyOwner env st ;;;
  let st' := set_isShutdown true st in
  external_call env ;;;
  Ok st'.

(** The external functions of the contract. *)
Inductive Invocation : Type :=
| AddSponsoredAccount (account : address)
| RemoveSponsoredAccount (account : address)
| ValidatePaymasterUserOp (userOp : PackedUserOperation) (userOpHash : bytes32)
    (maxCost : uint256)
| PostOp (mode : PostOpMode) (context : list Byte.byte)
    (actualGasCost actualUserOpFeePerGas : uint256)
| Deposit
| GetDeposit
| WithdrawFromEntryPoint (amount : uint256)
| Withdraw
| Shutdown
| Receive
| TransferOwnership (newOwner : address)
| RenounceOwnership.

(** The state one call produces (views and [receive] leave it as it is). *)
Definition dispatch (env : Env) (f : Invocation) (st : State) : Result State :=
  match f with
  | AddSponsoredAccount account => addSponsoredAccount env account st
  | RemoveSponsoredAccount account => removeSponsoredAccount env account st
  | ValidatePaymasterUserOp userOp userOpHash maxCost =>
      validatePaymasterUserOp env userOp userOpHash maxCost st ;;; Ok st
  | PostOp mode context cost fee => postOp env mode context cost fee st
  | Deposit => deposit env st
  | GetDeposit => Ok st
  | WithdrawFromEntryPoint amount => withdrawFromEntryPoint env amount st
  | Withdraw => withdraw env st
  | Shutdown => shutdown env st
  | Receive => Ok st
  | TransferOwnership newOwner => transferOwnership env newOwner st
  | RenounceOwnership => renounceOwnership env st
  end.

(** A call together with the state it leaves behind. *)
Definition transact (st : State) (tx : Env * Invocation) : State :=
  commit st (dispatch (fst tx) (snd tx) st).

(** Any sequence of calls, one after the other. *)
Definition run (txs : list (Env * Invocation)) (st : State) : State :=
  fold_left transact txs st.

(** The arguments of a call are uint256 values. *)
Definition well_typed (f : Invocation) : Prop :=
  match f with
  | PostOp _ _ actualGasCost _ => is_uint256 actualGasCost
  | _ => True
  end.

(** The admission checks of [validatePaymasterUserOp] with their reasons, in
    the order the function makes them. *)
Definition admission_checks (env : Env) (userOp : PackedUserOperation)
    (maxCost : uint256) (st : State) : list (bool * string) :=
  [ (negb (isShutdown st), "Paymaster is shut down");
    (entryPoint st =? msg_sender env, "Invalid entry point");
    (preVerificationGas userOp <=? MAX_GAS_LIMIT, "Gas limits too high");
    (entryPoint_balanceOf env >=? maxCost, "Insufficient funds for gas");
    (fst (_parseGasFees (gasFees userOp)) <=? MAX_FEE_PER_GAS, "Gas fee too high");
    (sponsored st (sender userOp), "Account not sponsored") ].

(** The five conditions in the order the specification lists them:
    shut down, gas ceiling, fee-rate ceiling, funded balance, whitelist. *)
Definition spec_admission_checks (env : Env) (userOp : PackedUserOperation)
    (maxCost : uint256) (st : State) : list (bool * string) :=
  [ (negb (isShutdown st), "Paymaster is shut down");
    (maxCost <=? MAX_GAS_LIMIT, "Gas limits too high");
    (fst (_parseGasFees (gasFees userOp)) <=? MAX_FEE_PER_GAS, "Gas fee too high");
    (entryPoint_balanceOf env >=? maxCost, "Insufficient funds for gas");
    (sponsored st (sender userOp), "Account not sponsored") ].

(** The reason of the first check of a list that fails, if one does. *)
Definition first_failure (checks : list (bool * string)) : option string :=
  snd <$> find (fun check => negb (fst check)) checks.

(** The admission decision as the specification words it: the first of its
    five conditions that fails is the reason, and the operation is admitted
    when none fails. *)
Definition spec_admit (env : Env) (userOp : PackedUserOperation)
    (maxCost : uint256) (st : State) : Result (list Byte.byte * uint256) :=
  match first_failure (spec_admission_checks env userOp maxCost st) with
  | Some reason => Reverted (Error reason)
  | None => Ok (abi_encode_address (sender userOp), 0)
  end.

End Paymaster.


(** ** A small world to run the delegate in *)
Module DelegateDemo.
Import Delegate.

(** The world is the amount of ether handed out so far. The target at address
    13 rejects every call with the two bytes [de ad]; every other target
    takes the value and returns nothing. *)
Definition extern_passive (env : Env) (t : address) (v : uint256)
    (d : list Byte.byte) (w : Z) : @Ext Z :=
  if t =? 13 then Finish false [Byte.xde; Byte.xad] w
  else Finish true [] (w + v).

(** The same world, in which a call of the account to itself runs an empty
    batch (a call back into [executeBatch]). *)
Definition extern_reentrant (env : Env) (t : address) (v : uint256)
    (d : list Byte.byte) (w : Z) : @Ext Z :=
  if t =? this env then
    Reenter (this env) (ExecuteBatch []) w
      (fun r w' => Finish (if r is Ok _ then true else false) [] w')
  else extern_passive env t v d w.

(** Account 1 acting for itself at time 1000. *)
Definition alice : Env :=
  {| this := 1; tx_origin := 1; block_timestamp := 1000 |}.

(** A plain transfer of [amount] to [to]. *)
Definition pay (to : address) (amount : uint256) : Call :=
  {| target := to; value := amount; data := [] |}.

(** Account 1 after granting delegate 7 a key valid until 2000 with cap 100. *)
Definition granted : @Chain Z :=
  write_key 1 7 {| validUntil := 2000; maxValue := 100; isActive := true |}
    (genesis 0).

(** The same account after it has revoked the key of delegate 7. *)
Definition revoked : @Chain Z :=
  write_key 1 7 {| validUntil := 2000; maxValue := 100; isActive := false |}
    (genesis 0).

(** Calls back into the contract are served at call depth 4. *)
Definition serve (extern : Env -> address -> uint256 -> list Byte.byte -> Z -> @Ext Z)
    : @Handler Z :=
  entry extern 4 alice.

End DelegateDemo.


(** ** A small sponsor to run the paymaster with *)
Module PaymasterDemo.
Import Paymaster.

(** The administrator is account 1, the EntryPoint is at address 2. *)
Definition as_owner : Env :=
  {| msg_sender := 1; entryPoint_balanceOf := 0; external_call := Ok tt |}.

(** The EntryPoint calling, while it holds [balance] for the paymaster. *)
Definition as_entryPoint (balance : uint256) : Env :=
  {| msg_sender := 2; entryPoint_balanceOf := balance; external_call := Ok tt |}.

(** Somebody else (account 9) calling. *)
Definition as_stranger : Env :=
  {| msg_sender := 9; entryPoint_balanceOf := 0; external_call := Ok tt |}.

(** The paymaster after deployment by account 1 and the whitelisting of
    account 10. *)
Definition open_gate : State :=
  commit (constructor as_owner 2 3)
    (addSponsoredAccount as_owner 10 (constructor as_owner 2 3)).

(** The same paymaster after the administrator has shut it down. *)
Definition shut_gate : State := commit open_gate (shutdown as_owner open_gate).

(** An operation of account 10 declaring [fee] as its fee rate. *)
Definition op (fee : uint256) : PackedUserOperation :=
  {| sender := 10; nonce := 0; initCode := []; callData := [];
     accountGasLimits := 0; preVerificationGas := 1000;
     gasFees := Z.shiftl fee 128; paymasterAndData := []; signature := [] |}.

End PaymasterDemo.

(** ** Account.sol *)
Module Account.

Record State : Type := mkState {
  count : uint256;
  platformSigner : address;
  merchantAddress : address;
  userEmail : string;
  entryPoint : address
}.

(** constructor(address _entryPoint, address _platformSigner,
    address _merchantAddress, string _email) *)
Definition constructor (_entryPoint _platformSigner _merchantAddress : address)
    (_email : string) : State :=
  {| count := 0; platformSigner := _platformSigner;
     merchantAddress := _merchantAddress; userEmail := _email;
     entryPoint := _entryPoint |}.

End Account.

(** ** AccountFactory.sol *)
Module AccountFactory.

Inductive Event : Type :=
| AccountCreated (emailHash : bytes32) (account merchantAddress : address).

Record State : Type := mkState {
  accountsByEmailHash : gmap Z Z;
  accountsByMerchantAddress : gmap Z Z;
  platformSigner : address;
  entryPoint : address;
  logs : list Event
}.

(** What one call sees of its surroundings: its caller, and the address the
    [n]-th contract creation of the call returns. *)
Record Env : Type := mkEnv {
  msg_sender : address;
  deployed : nat -> address
}.

Section Factory.
(** [keccak256(abi.encodePacked(_email))] *)
Variable keccak256 : string -> bytes32.

Definition account_of_hash (st : State) (emailHash : bytes32) : address :=
  mapping_get 0 (accountsByEmailHash st) emailHash.

Definition account_of_merchant (st : State) (merchant : address) : address :=
  mapping_get 0 (accountsByMerchantAddress st) merchant.

(** constructor(address _platformSigner, address _entryPoint) *)
Definition constructor (_platformSigner _entryPoint : address) : State :=
  {| accountsByEmailHash := ∅; accountsByMerchantAddress := ∅;
     platformSigner := _platformSigner; entryPoint := _entryPoint; logs := [] |}.

(** function updatePlatformSigner(address _newPlatformSigner) *)
Definition updatePlatformSigner (env : Env) (_newPlatformSigner : address)
    (st : State) : Result State :=
  require (msg_sender env =? platformSigner st) "Not authorized" ;;;
  Ok {| accountsByEmailHash := accountsByEmailHash st;
        accountsByMerchantAddress := accountsByMerchantAddress st;
        platformSigner := _newPlatformSigner; entryPoint := entryPoint st;
        logs := logs st |}.

(** The factory on the chain: its storage and log, and the accounts created
    so far, each at its address. *)
Record Chain : Type := mkChain {
  factory : State;
  accounts : gmap Z Account.State
}.

(** [new Account(entryPoint, platformSigner, _merchantAddress, _email)]: the
    new contract starts in the state the constructor of Account.sol leaves.
    Its address is the EVM's choice, given by the environment as [created];
    the creation fails, and the caller reverts, when it yields no address
    (zero) or an address that holds a contract already. *)
Definition new_Account (created : address)
    (_entryPoint _platformSigner _merchantAddress : address) (_email : string)
    (existing : gmap Z Account.State) : Result (address * gmap Z Account.State) :=
  if created =? 0 then Reverted (RevertData [])
  else
    match existing !! created with
    | Some _ => Reverted (RevertData [])
    | None =>
        Ok (created,
            <[created := Account.constructor _entryPoint _platformSigner
                           _merchantAddress _email]> existing)
    end.

(** function createAccount(string _email, address _merchantAddress) *)
Definition createAccount (created : address) (_email : string)
    (_merchantAddress : address) (c : Chain) : Result (address * Chain) :=
  let st := factory c in
  require (account_of_hash st (keccak256 _email) =? 0) "Account already exists" ;;;
  creation <- new_Account created (entryPoint st) (platformSigner st)
                _merchantAddress _email (accounts c) ;;
  let newAccount := fst creation in
  let emailHash := keccak256 _email in
  Ok (newAccount,
      {| factory :=
           {| accountsByEmailHash :=
                <[emailHash := newAccount]> (accountsByEmailHash st);
              accountsByMerchantAddress :=
                <[_merchantAddress := newAccount]> (accountsByMerchantAddress st);
              platformSigner := platformSigner st; entryPoint := entryPoint st;
              logs := logs st
                      ++ [AccountCreated emailHash newAccount _merchantAddress] |};
         accounts := snd creation |}).

(** The loop of [batchCreateAccounts] from index [i] on: [_emails[i]] is the
    head of [remaining]; reading [_merchantAddresses[i]] past the end of the
    array is a [Panic 0x32]. *)
Fixpoint batch_loop (env : Env) (i : nat) (remaining : list string)
    (_merchantAddresses : list Z) (c : Chain) : Result (list Z * Chain) :=
  match remaining with
  | [] => Ok ([], c)
  | email :: rest =>
      merchant <- match _merchantAddresses !! i with
                  | Some m => Ok m
                  | None => Reverted (Panic 50)
                  end ;;
      created <- createAccount (deployed env i) email merchant c ;;
      more <- batch_loop env (S i) rest _merchantAddresses (snd created) ;;
      Ok (fst created :: fst more, snd more)
  end.

(** function batchCreateAccounts(string[] _emails, address[] _merchantAddresses) *)
Definition batchCreateAccounts (env : Env) (_emails : list string)
    (_merchantAddresses : list Z) (c : Chain) : Result (list Z * Chain) :=
  batch_loop env 0 _emails _merchantAddresses c.

(** function getAccounts(string _email) *)
Definition getAccounts (_email : string) (st : State) : address :=
  account_of_hash st (keccak256 _email).

(** function getAccountByMerchantAddress(address _merchantAddress) *)
Definition getAccountByMerchantAddress (_merchantAddress : address) (st : State)
    : address :=
  account_of_merchant st _merchantAddress.

(** The external functions of the contract. *)
Inductive Invocation : Type :=
| UpdatePlatformSigner (_newPlatformSigner : address)
| CreateAccount (_email : string) (_merchantAddress : address)
| BatchCreateAccounts (_emails : list string) (_merchantAddresses : list Z)
| GetAccounts (_email : string)
| GetAccountByMerchantAddress (_merchantAddress : address).

Definition dispatch (env : Env) (f : Invocation) (c : Chain) : Result Chain :=
  match f with
  | UpdatePlatformSigner signer =>
      st <- updatePlatformSigner env signer (factory c) ;;
      Ok {| factory := st; accounts := accounts c |}
  | CreateAccount email merchant =>
      created <- createAccount (deployed env 0) email merchant c ;;
      Ok (snd created)
  | BatchCreateAccounts emails merchants =>
      created <- batchCreateAccounts env emails merchants c ;; Ok (snd created)
  | GetAccounts _ => Ok c
  | GetAccountByMerchantAddress _ => Ok c
  end.

Definition transact (c : Chain) (tx : Env * Invocation) : Chain :=
  commit c (dispatch (fst tx) (snd tx) c).

Definition run (txs : list (Env * Invocation)) (c : Chain) : Chain :=
  fold_left transact txs c.

End Factory.
End AccountFactory.

(** ** Records kept for auditing *)
Module DelegateAudit.
Import Delegate.

(** The nonces the completed batches of an account were recorded with, oldest
    first. *)
Fixpoint batch_nonces (account : address) (l : list Event) : list Z :=
  match l with
  | [] => []
  | BatchExecuted a n :: rest =>
      if a =? account then n :: batch_nonces account rest
      else batch_nonces account rest
  | _ :: rest => batch_nonces account rest
  end.

(** Only the slots of [self] hold anything: every other account's nonce and
    session keys read as never written. *)
Definition own_slots_only {W : Type} (self : address) (c : @Chain W) : Prop :=
  forall a, a <> self ->
    nonce_of c a = 0 /\ forall k, key_of c a k = zeroSessionKey.

End DelegateAudit.

Module PaymasterAudit.
Import Paymaster.

(** What a call asks to add to the usage of [account]: the cost of a
    [postOp] whose context names that account. *)
Definition charge (account : address) (tx : Env * Invocation) : Z :=
  match snd tx with
  | PostOp _ context actualGasCost _ =>
      match abi_decode_address context with
      | Ok a => if a =? account then actualGasCost else 0
      | Reverted _ => 0
      end
  | _ => 0
  end.

Definition charges (account : address) (txs : list (Env * Invocation)) : Z :=
  foldr (fun tx total => charge account tx + total) 0 txs.

(** A [postOp] sent by the EntryPoint of [st] with a context that names an
    account and a cost that is a uint256. *)
Definition recording (st : State) (tx : Env * Invocation) : Prop :=
  msg_sender (fst tx) = entryPoint st /\
  match snd tx with
  | PostOp _ context actualGasCost _ =>
      (exists a, abi_decode_address context = Ok a) /\ is_uint256 actualGasCost
  | _ => False
  end.

End PaymasterAudit.

(** ** A small registry to run the factory with *)
Module AccountFactoryDemo.
Import AccountFactory.

(** A stand-in for the hash that, like the real one, tells different e-mail
    addresses apart: the bytes of the address read as one number. *)
Fixpoint toy_hash (email : string) : Z :=
  match email with
  | EmptyString => 1
  | String a rest => Z.of_nat (Ascii.nat_of_ascii a) + 256 * toy_hash rest
  end.

(** Anybody (account 9) calling; the [n]-th creation returns [100 + n]. *)
Definition anybody : Env :=
  {| msg_sender := 9; deployed := fun n => 100 + Z.of_nat n |}.

(** A factory with platform signer 4 and EntryPoint 2. *)
Definition fresh : State := constructor 4 2.

(** The same factory on a chain where it has created no account yet. *)
Definition fresh_chain : Chain := {| factory := fresh; accounts := ∅ |}.

End AccountFactoryDemo.

(** ** More states to run the contracts in *)
Module Scenes.

(** Account 1 at the later time 5000. *)
Definition late : Delegate.Env :=
  {| Delegate.this := 1; Delegate.tx_origin := 1;
     Delegate.block_timestamp := 5000 |}.

(** Account 1 with its nonce at the largest uint256. *)
Definition exhausted : @Delegate.Chain Z :=
  Delegate.write_nonce 1 MAX_UINT256 (Delegate.genesis 0).

(** Account 1 after an empty batch and a batch of one transfer. *)
Definition two_batches : @Delegate.Chain Z :=
  Delegate.transact DelegateDemo.extern_passive 3 DelegateDemo.alice 1
    (Delegate.ExecuteBatch [DelegateDemo.pay 5 10])
    (Delegate.transact DelegateDemo.extern_passive 3 DelegateDemo.alice 1
       (Delegate.ExecuteBatch []) (Delegate.genesis 0)).

(** The paymaster of [PaymasterDemo] with the usage of account 10 at the
    largest uint256. *)
Definition saturated : Paymaster.State :=
  Paymaster.set_usage 10 MAX_UINT256 PaymasterDemo.open_gate.

(** The EntryPoint recording [cost] for [account]. *)
Definition record_usage (account : address) (cost : uint256)
    : Paymaster.Env * Paymaster.Invocation :=
  (PaymasterDemo.as_entryPoint 0,
   Paymaster.PostOp Paymaster.opSucceeded (abi_encode_address account) cost 0).

(** An operation of account 10 that differs from [PaymasterDemo.op 5] in
    everything admission does not look at. *)
Definition other_op : Paymaster.PackedUserOperation :=
  {| Paymaster.sender := 10; Paymaster.nonce := 77;
     Paymaster.initCode := [Byte.x01]; Paymaster.callData := [Byte.x02];
     Paymaster.accountGasLimits := 12345; Paymaster.preVerificationGas := 1000;
     Paymaster.gasFees := Z.shiftl 5 128 + 999;
     Paymaster.paymasterAndData := []; Paymaster.signature := [Byte.x03] |}.

(** Equality of two byte strings. *)
Fixpoint bytes_eqb (a b : list Byte.byte) : bool :=
  match a, b with
  | [], [] => true
  | x :: a', y :: b' => Byte.eqb x y && bytes_eqb a' b'
  | _, _ => false
  end.

(** The call data of [executeBatch] with an empty array of calls: the
    selector 34fcd5be of executeBatch((address,uint256,bytes)[]), the offset
    of the array and its length 0. *)
Definition executeBatch_nothing : list Byte.byte :=
  [Byte.x34; Byte.xfc; Byte.xd5; Byte.xbe] ++ be_encode 32 32 ++ be_encode 32 0.

(** The world of [DelegateDemo] in which the account's code answers one kind
    of call: a call to the account itself carrying the call data above runs
    [executeBatch] with no calls, the account being the caller. Every other
    call goes as in [DelegateDemo.extern_passive]. *)
Definition extern_selfcall (env : Delegate.Env) (t : address) (v : uint256)
    (d : list Byte.byte) (w : Z) : @Delegate.Ext Z :=
  if (t =? Delegate.this env) && bytes_eqb d executeBatch_nothing then
    Delegate.Reenter (Delegate.this env) (Delegate.ExecuteBatch []) w
      (fun r w' => Delegate.Finish (if r is Ok _ then true else false) [] w')
  else DelegateDemo.extern_passive env t v d w.

(** The account calling itself with the call data above. *)
Definition batch_in_batch : Delegate.Call :=
  {| Delegate.target := 1; Delegate.value := 0;
     Delegate.data := executeBatch_nothing |}.

End Scenes.

(** * Properties of EIP7702Delegate.sol *)
Module DelegateSpec.
Import Delegate.

Section Frames.
Context {W : Type}.
Variable extern : Env -> address -> uint256 -> list Byte.byte -> W -> @Ext W.
Variable reenter : @Handler W.
Variable env : Env.

Lemma call_failure_keeps_state t v d (c c' : @Chain W) result :
  call extern reenter env t v d c = (false, result, c') -> c' = c.
Proof.
  unfold call.
  destruct (run_ext reenter _ c) as [[success res] c1].
  destruct success; congruence.
Qed.

Lemma run_calls_app pre rest (c : @Chain W) :
  run_calls extern reenter env (pre ++ rest) c =
  bind (run_calls extern reenter env pre c) (run_calls extern reenter env rest).
Proof.
  revert c. induction pre as [|cl pre IH]; intros c; simpl; [reflexivity|].
  destruct (call extern reenter env _ _ _ c) as [[success res] c1].
  destruct success; [apply IH | reflexivity].
Qed.

(** C1: a batch whose calls succeed up to some call that fails reverts as a
    whole with exactly the data the failing call returned; the state left
    behind is the state before the batch, so the nonce increment and the
    effects of the preceding calls are gone. *)
Theorem executeBatch_atomic msg_sender (pre post : list Call) (bad : Call)
    (c c1 c2 : @Chain W) (reason : list Byte.byte) :
  msg_sender = this env ->
  nonce_of c msg_sender < MAX_UINT256 ->
  run_calls extern reenter env pre
    (write_nonce msg_sender (nonce_of c msg_sender + 1) c) = Ok c1 ->
  call extern reenter env (target bad) (value bad) (data bad) c1
    = (false, reason, c2) ->
  executeBatch extern reenter env msg_sender (pre ++ bad :: post) c
    = Reverted (RevertData reason)
  /\ commit c (executeBatch extern reenter env msg_sender (pre ++ bad :: post) c)
    = c.
Proof.
  intros Hsender Hnonce Hpre Hbad.
  assert (Hrun : executeBatch extern reenter env msg_sender (pre ++ bad :: post) c
                 = Reverted (RevertData reason)).
  { unfold executeBatch, onlyDelegatingAccount, require, checked_add.
    rewrite (proj2 (Z.eqb_eq _ _) Hsender). simpl.
    rewrite (proj2 (Z.leb_le _ _)) by lia. simpl.
    rewrite run_calls_app, Hpre. simpl. rewrite Hbad. reflexivity. }
  split; [exact Hrun | rewrite Hrun; reflexivity].
Qed.

Lemma key_of_write_key_eq account sessionKey k (c : @Chain W) :
  key_of (write_key account sessionKey k c) account sessionKey = k.
Proof.
  unfold key_of, write_key, mapping_get. simpl.
  rewrite lookup_insert_eq. simpl. rewrite lookup_insert_eq. reflexivity.
Qed.

Lemma key_of_write_key_ne account sessionKey a k' k (c : @Chain W) :
  (a, k') <> (account, sessionKey) ->
  key_of (write_key account sessionKey k c) a k' = key_of c a k'.
Proof.
  intros Hne. unfold key_of, write_key, mapping_get. simpl.
  destruct (decide (account = a)) as [->|Ha].
  - rewrite lookup_insert_eq. simpl.
    rewrite lookup_insert_ne by congruence. reflexivity.
  - rewrite lookup_insert_ne by exact Ha. reflexivity.
Qed.

Lemma nonce_of_write_key account sessionKey k (c : @Chain W) a :
  nonce_of (write_key account sessionKey k c) a = nonce_of c a.
Proof. reflexivity. Qed.

Lemma write_key_twice account sessionKey k (c : @Chain W) :
  write_key account sessionKey k (write_key account sessionKey k c)
  = write_key account sessionKey k c.
Proof.
  unfold write_key, set_storage, mapping_get. simpl. do 2 f_equal.
  rewrite lookup_insert_eq. simpl.
  rewrite !insert_insert_eq. reflexivity.
Qed.

(** C3: the validity query answers true exactly for an entry that is active
    and whose expiry has not passed; it returns the chain it was asked on;
    an inactive entry and an expired entry are invalid. *)
Theorem isValidSessionKey_iff (sessionKey account : address) (c : @Chain W) :
  (isValidSessionKey env sessionKey account c = true <->
     isActive (key_of c account sessionKey) = true /\
     block_timestamp env <= validUntil (key_of c account sessionKey))
  /\ (forall msg_sender,
        dispatch extern reenter env msg_sender
          (IsValidSessionKey sessionKey account) c
        = Ok (RBool (isValidSessionKey env sessionKey account c), c))
  /\ (isActive (key_of c account sessionKey) = false ->
        isValidSessionKey env sessionKey account c = false)
  /\ (validUntil (key_of c account sessionKey) < block_timestamp env ->
        isValidSessionKey env sessionKey account c = false).
Proof.
  unfold isValidSessionKey.
  split; [|split; [|split]].
  - rewrite andb_true_iff, Z.leb_le. reflexivity.
  - intros msg_sender. reflexivity.
  - intros Hactive. rewrite Hactive. reflexivity.
  - intros Hpast. apply andb_false_intro2. apply Z.leb_gt. exact Hpast.
Qed.

(** C7: granting a key writes the new expiry and cap with the active flag
    set, whatever the entry held before; every other entry and every nonce
    is as before. The granted key is valid at exactly the times up to the new
    expiry: a revoked key is valid again, and an expiry in the past is taken
    without an error and gives a key that is invalid at once. *)
Theorem addSessionKey_overwrites msg_sender sessionKey until cap (c : @Chain W) :
  msg_sender = this env ->
  exists c',
    addSessionKey env msg_sender sessionKey until cap c = Ok c'
    /\ key_of c' msg_sender sessionKey
       = {| validUntil := until; maxValue := cap; isActive := true |}
    /\ (forall env',
          isValidSessionKey env' sessionKey msg_sender c'
          = (block_timestamp env' <=? until))
    /\ (forall a k, (a, k) <> (msg_sender, sessionKey) ->
          key_of c' a k = key_of c a k)
    /\ (forall a, nonce_of c' a = nonce_of c a).
Proof.
  intros Hsender. eexists. unfold addSessionKey, onlyDelegatingAccount, require.
  rewrite (proj2 (Z.eqb_eq _ _) Hsender). simpl.
  split; [reflexivity|].
  assert (Hkey : forall (x : @Chain W) e, key_of (emit e x) = key_of x) by reflexivity.
  repeat split.
  - rewrite Hkey. apply key_of_write_key_eq.
  - intros env'. unfold isValidSessionKey.
    rewrite Hkey, key_of_write_key_eq. reflexivity.
  - intros a k Hne. rewrite Hkey. apply key_of_write_key_ne. exact Hne.
Qed.

(** C9: revoking clears the active flag of the entry and keeps its other
    fields; revoking again gives the very same state; for any prior state,
    one in which the pair was never granted included, the call succeeds and
    the pair is invalid at every time. *)
Theorem revokeSessionKey_idempotent msg_sender sessionKey (c : @Chain W) :
  msg_sender = this env ->
  exists c1,
    revokeSessionKey env msg_sender sessionKey c = Ok c1
    /\ key_of c1 msg_sender sessionKey
       = {| validUntil := validUntil (key_of c msg_sender sessionKey);
            maxValue := maxValue (key_of c msg_sender sessionKey);
            isActive := false |}
    /\ revokeSessionKey env msg_sender sessionKey c1 = Ok c1
    /\ (forall env', isValidSessionKey env' sessionKey msg_sender c1 = false).
Proof.
  intros Hsender. eexists. unfold revokeSessionKey, onlyDelegatingAccount, require.
  rewrite (proj2 (Z.eqb_eq _ _) Hsender). simpl.
  split; [reflexivity|]. split; [apply key_of_write_key_eq|]. split.
  - rewrite key_of_write_key_eq. simpl. rewrite write_key_twice. reflexivity.
  - intros env'. unfold isValidSessionKey. rewrite key_of_write_key_eq. reflexivity.
Qed.

Lemma count_batches_app a l1 l2 :
  count_batches a (l1 ++ l2) = count_batches a l1 + count_batches a l2.
Proof.
  induction l1 as [|[b n|b k u] l1 IH]; simpl; [reflexivity| |exact IH].
  rewrite IH. lia.
Qed.

Lemma count_batches_nonneg a l : 0 <= count_batches a l.
Proof.
  induction l as [|[b n|b k u] l IH]; simpl; [lia| |exact IH].
  destruct (b =? a); lia.
Qed.

Lemma advances_refl (c : @Chain W) : advances c c.
Proof.
  exists []. split; [symmetry; apply app_nil_r | intros a; simpl; lia].
Qed.

Lemma advances_trans (c1 c2 c3 : @Chain W) :
  advances c1 c2 -> advances c2 c3 -> advances c1 c3.
Proof.
  intros [l1 [Hl1 Hn1]] [l2 [Hl2 Hn2]]. exists (l1 ++ l2). split.
  - rewrite Hl2, Hl1, app_assoc. reflexivity.
  - intros a. rewrite Hn2, Hn1, count_batches_app. lia.
Qed.

Lemma advances_world_l w (c c' : @Chain W) :
  advances (set_world w c) c' -> advances c c'.
Proof. intros H. exact H. Qed.

Lemma advances_world_r w (c c' : @Chain W) :
  advances c c' -> advances c (set_world w c').
Proof. intros H. exact H. Qed.

Lemma nonce_of_write_nonce account n (c : @Chain W) a :
  nonce_of (write_nonce account n c) a = if a =? account then n else nonce_of c a.
Proof.
  unfold nonce_of, write_nonce, mapping_get. simpl.
  destruct (Z.eqb_spec a account) as [->|Hne].
  - rewrite lookup_insert_eq. reflexivity.
  - rewrite lookup_insert_ne by congruence. reflexivity.
Qed.

Section Advancing.
Hypothesis reenter_advances :
  forall s f (c : @Chain W) r c', reenter s f c = Ok (r, c') -> advances c c'.

Lemma run_ext_advances e (c : @Chain W) success result c' :
  run_ext reenter e c = (success, result, c') -> advances c c'.
Proof.
  revert c. induction e as [ok res w|s f w k IH]; intros c; simpl.
  - intros [= _ _ <-]. apply advances_world_r, advances_refl.
  - destruct (reenter s f (set_world w c)) as [[r c1]|err] eqn:Hre; intros Hrun.
    + apply (advances_trans c c1); [|eapply IH; exact Hrun].
      apply (advances_world_l w). eapply reenter_advances. exact Hre.
    + apply (advances_world_l w). eapply IH. exact Hrun.
Qed.

Lemma call_advances t v d (c : @Chain W) success result c' :
  call extern reenter env t v d c = (success, result, c') -> advances c c'.
Proof.
  unfold call.
  destruct (run_ext reenter _ c) as [[ok res] c1] eqn:Hrun.
  destruct ok; intros [= _ _ <-].
  - eapply run_ext_advances. exact Hrun.
  - apply advances_refl.
Qed.

Lemma run_calls_advances calls (c c' : @Chain W) :
  run_calls extern reenter env calls c = Ok c' -> advances c c'.
Proof.
  revert c. induction calls as [|cl calls IH]; intros c; simpl.
  - intros [= <-]. apply advances_refl.
  - destruct (call extern reenter env _ _ _ c) as [[ok res] c1] eqn:Hcall.
    destruct ok; [|discriminate]. intros Hrest.
    apply (advances_trans c c1); [|apply IH; exact Hrest].
    eapply call_advances. exact Hcall.
Qed.

Lemma executeBatch_advances msg_sender calls (c c' : @Chain W) :
  executeBatch extern reenter env msg_sender calls c = Ok c' -> advances c c'.
Proof.
  unfold executeBatch, onlyDelegatingAccount, require, checked_add.
  destruct (msg_sender =? this env); [simpl|discriminate].
  destruct (nonce_of c msg_sender + 1 <=? MAX_UINT256); [simpl|discriminate].
  destruct (run_calls extern reenter env calls _) as [c2|err] eqn:Hrun;
    [simpl|discriminate].
  intros [= <-].
  destruct (run_calls_advances _ _ _ Hrun) as [new [Hlogs Hnonce]].
  exists (new ++ [BatchExecuted msg_sender (nonce_of c msg_sender)]). split.
  - simpl. rewrite Hlogs. simpl. rewrite app_assoc. reflexivity.
  - intros a. change (nonce_of (emit _ c2) a) with (nonce_of c2 a).
    rewrite Hnonce, nonce_of_write_nonce, count_batches_app. simpl.
    rewrite (Z.eqb_sym msg_sender a).
    destruct (Z.eqb_spec a msg_sender); subst; lia.
Qed.

Lemma executeBatch_own_increment msg_sender calls (c c' : @Chain W) :
  executeBatch extern reenter env msg_sender calls c = Ok c' ->
  exists nested,
    logs c' = logs c ++ nested ++ [BatchExecuted msg_sender (nonce_of c msg_sender)]
    /\ forall a, nonce_of c' a
                 = nonce_of c a + count_batches a nested
                   + (if a =? msg_sender then 1 else 0).
Proof.
  unfold executeBatch, onlyDelegatingAccount, require, checked_add.
  destruct (msg_sender =? this env); [simpl|discriminate].
  destruct (nonce_of c msg_sender + 1 <=? MAX_UINT256); [simpl|discriminate].
  destruct (run_calls extern reenter env calls _) as [c2|err] eqn:Hrun;
    [simpl|discriminate].
  intros [= <-].
  destruct (run_calls_advances _ _ _ Hrun) as [nested [Hlogs Hnonce]].
  exists nested. split.
  - simpl. rewrite Hlogs. simpl. rewrite app_assoc. reflexivity.
  - intros a. change (nonce_of (emit _ c2) a) with (nonce_of c2 a).
    rewrite Hnonce, nonce_of_write_nonce.
    destruct (Z.eqb_spec a msg_sender); subst; lia.
Qed.

Lemma dispatch_quiet msg_sender f (c : @Chain W) r c' :
  dispatch extern reenter env msg_sender f c = Ok (r, c') ->
  match f with
  | ExecuteBatch _ | ExecuteWithSessionKey _ _ _ => True
  | _ => forall a, nonce_of c' a = nonce_of c a
  end.
Proof.
  destruct f; simpl; try trivial.
  - unfold addSessionKey, onlyDelegatingAccount, require.
    destruct (msg_sender =? this env); [simpl|discriminate].
    intros [= _ <-] a. reflexivity.
  - intros [= _ <-] a. reflexivity.
  - unfold revokeSessionKey, onlyDelegatingAccount, require.
    destruct (msg_sender =? this env); [simpl|discriminate].
    intros [= _ <-] a. reflexivity.
  - intros [= _ <-] a. reflexivity.
  - intros [= _ <-] a. reflexivity.
  - intros [= _ <-] a. reflexivity.
  - intros [= _ <-] a. reflexivity.
Qed.

Lemma dispatch_advances msg_sender f (c : @Chain W) r c' :
  dispatch extern reenter env msg_sender f c = Ok (r, c') -> advances c c'.
Proof.
  destruct f; simpl.
  - destruct (executeBatch _ _ _ _ _ c) as [c1|err] eqn:Hrun; [simpl|discriminate].
    intros [= _ <-]. eapply executeBatch_advances. exact Hrun.
  - unfold addSessionKey, onlyDelegatingAccount, require.
    destruct (msg_sender =? this env); [simpl|discriminate].
    intros [= _ <-]. exists [SessionKeyAdded msg_sender sessionKey validUntil0].
    split; [reflexivity|]. intros a. simpl. rewrite Z.add_0_r. reflexivity.
  - unfold executeWithSessionKey.
    destruct (onlyAccountOrSession env msg_sender c); [simpl|discriminate].
    destruct (require (isActive _) _); [simpl|discriminate].
    destruct (require (block_timestamp env <=? _) _); [simpl|discriminate].
    destruct (require (value0 <=? _) _); [simpl|discriminate].
    destruct (call extern reenter env _ _ _ c) as [[ok res] c1] eqn:Hcall.
    destruct ok; [simpl|discriminate].
    intros [= _ <-]. eapply call_advances. exact Hcall.
  - intros [= _ <-]. apply advances_refl.
  - unfold revokeSessionKey, onlyDelegatingAccount, require.
    destruct (msg_sender =? this env); [simpl|discriminate].
    intros [= _ <-]. exists []. split; [symmetry; apply app_nil_r|].
    intros a. simpl. rewrite Z.add_0_r. reflexivity.
  - intros [= _ <-]. apply advances_refl.
  - intros [= _ <-]. apply advances_refl.
  - intros [= _ <-]. apply advances_refl.
  - intros [= _ <-]. apply advances_refl.
Qed.

End Advancing.

Section Passive.
Hypothesis no_reentry : passive extern.

Lemma call_passive t v d (c : @Chain W) success result c' :
  call extern reenter env t v d c = (success, result, c') ->
  storage c' = storage c /\ logs c' = logs c.
Proof.
  unfold call.
  destruct (no_reentry env t v d (world c)) as [ok [res [w' ->]]]. simpl.
  destruct ok; intros [= _ _ <-]; split; reflexivity.
Qed.

Lemma run_calls_passive calls (c c' : @Chain W) :
  run_calls extern reenter env calls c = Ok c' ->
  storage c' = storage c /\ logs c' = logs c.
Proof.
  revert c. induction calls as [|cl calls IH]; intros c; simpl.
  - intros [= <-]. split; reflexivity.
  - destruct (call extern reenter env _ _ _ c) as [[ok res] c1] eqn:Hcall.
    destruct ok; [|discriminate]. intros Hrest.
    destruct (call_passive _ _ _ _ _ _ _ Hcall) as [Hs Hl].
    destruct (IH _ Hrest) as [Hs' Hl']. split; congruence.
Qed.

Lemma dispatch_passive msg_sender f (c : @Chain W) r c' a :
  dispatch extern reenter env msg_sender f c = Ok (r, c') ->
  nonce_of c' a = nonce_of c a +
    match f with
    | ExecuteBatch _ => if a =? msg_sender then 1 else 0
    | _ => 0
    end.
Proof.
  destruct f; simpl.
  - unfold executeBatch, onlyDelegatingAccount, require, checked_add.
    destruct (msg_sender =? this env); [simpl|discriminate].
    destruct (nonce_of c msg_sender + 1 <=? MAX_UINT256); [simpl|discriminate].
    destruct (run_calls extern reenter env calls _) as [c2|err] eqn:Hrun;
      [simpl|discriminate].
    intros [= _ <-]. destruct (run_calls_passive _ _ _ Hrun) as [Hs _].
    change (nonce_of (emit _ c2) a) with (nonce_of c2 a).
    unfold nonce_of at 1. rewrite Hs. fold (nonce_of (write_nonce msg_sender (nonce_of c msg_sender + 1) c) a).
    rewrite nonce_of_write_nonce. destruct (Z.eqb_spec a msg_sender); subst; lia.
  - unfold addSessionKey, onlyDelegatingAccount, require.
    destruct (msg_sender =? this env); [simpl|discriminate].
    intros [= _ <-]. apply Zplus_0_r_reverse.
  - unfold executeWithSessionKey.
    destruct (onlyAccountOrSession env msg_sender c); [simpl|discriminate].
    destruct (require (isActive _) _); [simpl|discriminate].
    destruct (require (block_timestamp env <=? _) _); [simpl|discriminate].
    destruct (require (value0 <=? _) _); [simpl|discriminate].
    destruct (call extern reenter env _ _ _ c) as [[ok res] c1] eqn:Hcall.
    destruct ok; [simpl|discriminate].
    intros [= _ <-]. destruct (call_passive _ _ _ _ _ _ _ Hcall) as [Hs _].
    unfold nonce_of. rewrite Hs. lia.
  - intros [= _ <-]. lia.
  - unfold revokeSessionKey, onlyDelegatingAccount, require.
    destruct (msg_sender =? this env); [simpl|discriminate].
    intros [= _ <-]. apply Zplus_0_r_reverse.
  - intros [= _ <-]. lia.
  - intros [= _ <-]. lia.
  - intros [= _ <-]. lia.
  - intros [= _ <-]. lia.
Qed.

End Passive.

(** C4: under an active, unexpired session key a value above the cap is
    rejected, by one unit as by any amount; a value equal to the cap passes
    the check, so that the call is made on the unchanged state and its outcome
    is the outcome of the function. The function writes nothing itself: when
    the call's target does not call back, the storage (and with it the cap
    for the next operation) is as before. *)
Theorem executeWithSessionKey_value_cap msg_sender t v d (c : @Chain W) :
  isActive (key_of c (tx_origin env) msg_sender) = true ->
  block_timestamp env <= validUntil (key_of c (tx_origin env) msg_sender) ->
  (maxValue (key_of c (tx_origin env) msg_sender) < v ->
     executeWithSessionKey extern reenter env msg_sender t v d c
     = Reverted (Error "Value exceeds session limit"))
  /\ (v = maxValue (key_of c (tx_origin env) msg_sender) ->
       executeWithSessionKey extern reenter env msg_sender t v d c
       = let '(success, result, c') := call extern reenter env t v d c in
         if success then Ok c' else Reverted (RevertData result))
  /\ (passive extern -> forall c',
       executeWithSessionKey extern reenter env msg_sender t v d c = Ok c' ->
       storage c' = storage c).
Proof.
  intros Hactive Hnow.
  assert (Hguard : onlyAccountOrSession env msg_sender c = Ok tt).
  { unfold onlyAccountOrSession, isValidSessionKey.
    rewrite Hactive, (proj2 (Z.leb_le _ _) Hnow), orb_true_r. reflexivity. }
  unfold executeWithSessionKey. rewrite Hguard, Hactive. simpl.
  rewrite (proj2 (Z.leb_le _ _) Hnow). simpl.
  split; [|split].
  - intros Hover.
    rewrite (proj2 (Z.leb_gt _ _)) by lia. reflexivity.
  - intros ->. rewrite Z.leb_refl. reflexivity.
  - intros Hpassive c'.
    destruct (require (v <=? _) _); [simpl|discriminate].
    destruct (call extern reenter env t v d c) as [[ok res] c1] eqn:Hcall.
    destruct ok; [|discriminate]. intros [= <-].
    apply (call_passive Hpassive _ _ _ _ _ _ _ Hcall).
Qed.

End Frames.

Section Depth.
Context {W : Type}.
Variable extern : Env -> address -> uint256 -> list Byte.byte -> W -> @Ext W.

Lemma entry_advances depth env msg_sender f (c : @Chain W) r c' :
  entry extern depth env msg_sender f c = Ok (r, c') -> advances c c'.
Proof.
  revert env msg_sender f c r c'.
  induction depth as [|depth IH]; intros env msg_sender f c r c'; simpl.
  - discriminate.
  - apply dispatch_advances. intros s g x y x'. apply IH.
Qed.

Lemma transact_advances depth env msg_sender f (c : @Chain W) :
  advances c (transact extern depth env msg_sender f c).
Proof.
  unfold transact.
  destruct (entry extern depth env msg_sender f c) as [[r c']|err] eqn:Hrun;
    simpl; [|apply advances_refl].
  eapply entry_advances. exact Hrun.
Qed.

Lemma reachable_nonce self (c : @Chain W) a :
  reachable extern self c -> nonce_of c a = count_batches a (logs c).
Proof.
  induction 1 as [w|c w Hc IH|c depth env msg_sender f Hself Hc IH].
  - reflexivity.
  - exact IH.
  - destruct (transact_advances depth env msg_sender f c) as [new [Hlogs Hnonce]].
    rewrite Hnonce, Hlogs, count_batches_app, IH. reflexivity.
Qed.

(** C2: the nonce of every account is 0 in a fresh state and, in every
    reachable state, equals the number of completed batches of that account on
    record; no call ever decreases it, and every call advances it by exactly
    the number of batches completed during the call. A completed
    [executeBatch] adds exactly one of its own, whatever the number of its
    calls, on top of what the batches completed inside its calls add, and is
    recorded with the nonce it started from. No other function writes the
    nonce: [addSessionKey], [revokeSessionKey] and the views leave every nonce
    as it is, and [executeWithSessionKey] moves it only by the batches
    completed inside its call. When no target calls back into the contract, a
    successful [executeBatch] therefore advances the caller's nonce by exactly
    one and every other function, [executeWithSessionKey] included, leaves
    every nonce as it is. *)
Theorem nonce_counts_batches (self : address) :
  (forall (w : W) a, getNonce a (genesis w) = 0)
  /\ (forall (c : @Chain W) a,
        reachable extern self c -> getNonce a c = count_batches a (logs c))
  /\ (forall depth env msg_sender f (c : @Chain W) a,
        getNonce a c <= getNonce a (transact extern depth env msg_sender f c))
  /\ (forall depth env msg_sender f (c : @Chain W),
        advances c (transact extern depth env msg_sender f c))
  /\ (forall depth env msg_sender calls (c : @Chain W) r c',
        entry extern depth env msg_sender (ExecuteBatch calls) c = Ok (r, c') ->
        exists nested,
          logs c' = logs c ++ nested
                    ++ [BatchExecuted msg_sender (getNonce msg_sender c)]
          /\ forall a, getNonce a c'
                       = getNonce a c + count_batches a nested
                         + (if a =? msg_sender then 1 else 0))
  /\ (forall depth env msg_sender f (c : @Chain W) r c',
        entry extern depth env msg_sender f c = Ok (r, c') ->
        match f with
        | ExecuteBatch _ => True
        | ExecuteWithSessionKey _ _ _ => advances c c'
        | _ => forall a, getNonce a c' = getNonce a c
        end)
  /\ (passive extern ->
      forall depth env msg_sender f (c : @Chain W) r c' a,
        entry extern depth env msg_sender f c = Ok (r, c') ->
        getNonce a c' = getNonce a c +
          match f with
          | ExecuteBatch _ => if a =? msg_sender then 1 else 0
          | _ => 0
          end).
Proof.
  unfold getNonce. split; [|split; [|split; [|split; [|split; [|split]]]]].
  - reflexivity.
  - intros c a. apply reachable_nonce.
  - intros depth env msg_sender f c a.
    destruct (transact_advances depth env msg_sender f c) as [new [_ Hnonce]].
    rewrite Hnonce. pose proof (count_batches_nonneg a new). lia.
  - apply transact_advances.
  - intros depth env msg_sender calls c r c'.
    destruct depth as [|depth]; simpl; [discriminate|].
    destruct (executeBatch extern _ env msg_sender calls c) as [c1|err] eqn:Hrun;
      simpl; [|discriminate].
    intros [= _ <-]. eapply executeBatch_own_increment; [|exact Hrun].
    intros s g x y x'. apply entry_advances.
  - intros depth env msg_sender f c r c' Hrun.
    pose proof (entry_advances _ _ _ _ _ _ _ Hrun) as Hadv.
    destruct depth as [|depth]; [discriminate|]. simpl in Hrun.
    pose proof Hrun as Hquiet. apply dispatch_quiet in Hquiet.
    destruct f; try exact Hquiet; trivial.
  - intros Hpassive depth env msg_sender f c r c' a.
    destruct depth as [|depth]; simpl; [discriminate|].
    apply dispatch_passive. exact Hpassive.
Qed.

End Depth.

Section Examples.
Import DelegateDemo.

Lemma extern_passive_is_passive : passive extern_passive.
Proof.
  intros env t v d w. unfold extern_passive.
  destruct (t =? 13); eauto.
Defined.

Lemma executeBatch_atomic_witness :
  run_calls extern_passive (serve extern_passive) alice [pay 5 10]
    (write_nonce 1 1 (genesis 100))
  = Ok (set_world 110 (write_nonce 1 1 (genesis 100)))
  /\ executeBatch extern_passive (serve extern_passive) alice 1
       ([pay 5 10] ++ pay 13 0 :: [pay 6 1]) (genesis 100)
     = Reverted (RevertData [Byte.xde; Byte.xad])
  /\ commit (genesis 100)
       (executeBatch extern_passive (serve extern_passive) alice 1
          ([pay 5 10] ++ pay 13 0 :: [pay 6 1]) (genesis 100))
     = genesis 100.
Proof.
  split; [reflexivity|].
  eapply (executeBatch_atomic extern_passive (serve extern_passive) alice 1
            [pay 5 10] [pay 6 1] (pay 13 0) (genesis 100)).
  - reflexivity.
  - reflexivity.
  - reflexivity.
  - reflexivity.
Defined.

Lemma nonce_counts_batches_witness :
  passive extern_passive
  /\ exists c',
       entry extern_passive 3 alice 1 (ExecuteBatch [pay 5 10; pay 6 1]) (genesis 0)
       = Ok (RUnit, c')
       /\ getNonce 1 c' = getNonce 1 (genesis 0) + 1.
Proof.
  split; [exact extern_passive_is_passive|].
  eexists. split; [reflexivity|].
  apply (proj2 (proj2 (proj2 (proj2 (proj2 (proj2
           (nonce_counts_batches extern_passive 1))))))
           extern_passive_is_passive 3%nat alice 1
           (ExecuteBatch [pay 5 10; pay 6 1]) (genesis 0) RUnit _ 1).
  reflexivity.
Defined.

(** A batch that calls the account itself completes two batches: the nonce
    is 2 and both completions are on record. *)
Example reentrant_batch_is_counted :
  exists c',
    entry extern_reentrant 3 alice 1 (ExecuteBatch [pay 1 0]) (genesis 0)
    = Ok (RUnit, c')
    /\ getNonce 1 c' = 2
    /\ logs c' = [BatchExecuted 1 1; BatchExecuted 1 0].
Proof. eexists. repeat split. Qed.

(** Against C2 as it is worded: the target of a call may be the account
    itself. A key holder who sends the call data of an empty [executeBatch] to
    the account through [executeWithSessionKey] moves the nonce from 0 to 1,
    and one batch of the account whose single call does the same moves it
    from 0 to 2. *)
Lemma nonce_moves_under_reentry :
  (exists c',
     entry Scenes.extern_selfcall 3 alice 7
       (ExecuteWithSessionKey 1 0 Scenes.executeBatch_nothing) granted
     = Ok (RUnit, c')
     /\ getNonce 1 granted = 0
     /\ getNonce 1 c' = 1)
  /\ (exists c',
        entry Scenes.extern_selfcall 3 alice 1
          (ExecuteBatch [Scenes.batch_in_batch]) (genesis 0)
        = Ok (RUnit, c')
        /\ getNonce 1 (genesis 0) = 0
        /\ getNonce 1 c' = 2).
Proof.
  split; eexists; (split; [vm_compute; reflexivity|]); split; reflexivity.
Qed.

Lemma isValidSessionKey_iff_witness :
  isValidSessionKey alice 7 1 granted = true
  /\ isValidSessionKey alice 7 1 revoked = false.
Proof.
  split.
  - apply (proj1 (isValidSessionKey_iff extern_passive (serve extern_passive)
                    alice 7 1 granted)).
    split; [reflexivity | vm_compute; discriminate].
  - apply (proj1 (proj2 (proj2 (isValidSessionKey_iff extern_passive
                    (serve extern_passive) alice 7 1 revoked)))).
    reflexivity.
Defined.

Lemma executeWithSessionKey_value_cap_witness :
  executeWithSessionKey extern_passive (serve extern_passive) alice 7 5 101 [] granted
  = Reverted (Error "Value exceeds session limit")
  /\ executeWithSessionKey extern_passive (serve extern_passive) alice 7 5 100 [] granted
     = Ok (set_world 100 granted).
Proof.
  split.
  - apply (proj1 (executeWithSessionKey_value_cap extern_passive
                    (serve extern_passive) alice 7 5 101 [] granted
                    eq_refl ltac:(vm_compute; discriminate))).
    reflexivity.
  - apply (proj1 (proj2 (executeWithSessionKey_value_cap extern_passive
                    (serve extern_passive) alice 7 5 100 [] granted
                    eq_refl ltac:(vm_compute; discriminate)))).
    reflexivity.
Defined.

Lemma addSessionKey_overwrites_witness :
  exists c',
    addSessionKey alice 1 7 3000 50 revoked = Ok c'
    /\ key_of c' 1 7 = {| validUntil := 3000; maxValue := 50; isActive := true |}
    /\ isValidSessionKey alice 7 1 c' = true.
Proof.
  destruct (addSessionKey_overwrites alice 1 7 3000 50 revoked eq_refl)
    as [c' [Hrun [Hkey [Hvalid _]]]].
  exists c'. split; [exact Hrun|]. split; [exact Hkey|].
  rewrite Hvalid. reflexivity.
Defined.

Lemma revokeSessionKey_idempotent_witness :
  exists c1,
    revokeSessionKey alice 1 7 granted = Ok c1
    /\ revokeSessionKey alice 1 7 c1 = Ok c1
    /\ isValidSessionKey alice 7 1 c1 = false.
Proof.
  destruct (revokeSessionKey_idempotent alice 1 7 granted eq_refl)
    as [c1 [Hrun [_ [Hagain Hinvalid]]]].
  exists c1. split; [exact Hrun|]. split; [exact Hagain|]. apply Hinvalid.
Defined.

End Examples.
End DelegateSpec.


(** * Properties of Paymaster.sol *)
Module PaymasterSpec.
Import Paymaster.

Lemma Z_of_byte_of_Z x : Z_of_byte (byte_of_Z x) = x mod 256.
Proof.
  unfold Z_of_byte, byte_of_Z.
  pose proof (Z.mod_pos_bound x 256 ltac:(lia)) as Hbound.
  destruct (Byte.of_N (Z.to_N (x mod 256))) as [b|] eqn:Hb; simpl.
  - apply Byte.to_of_N in Hb. rewrite Hb. lia.
  - apply Byte.of_N_None_iff in Hb. lia.
Qed.

Lemma be_decode_snoc bs b : be_decode (bs ++ [b]) = be_decode bs * 256 + Z_of_byte b.
Proof. unfold be_decode. rewrite fold_left_app. reflexivity. Qed.

Lemma be_encode_length n x : length (be_encode n x) = n.
Proof.
  revert x. induction n as [|n IH]; intros x; simpl; [reflexivity|].
  rewrite length_app, IH. simpl. lia.
Qed.

Lemma be_decode_encode n x : be_decode (be_encode n x) = x mod 256 ^ Z.of_nat n.
Proof.
  revert x. induction n as [|n IH]; intros x.
  - simpl. rewrite Z.mod_1_r. reflexivity.
  - cbn [be_encode]. rewrite be_decode_snoc, IH, Z_of_byte_of_Z.
    rewrite Nat2Z.inj_succ, Z.pow_succ_r by lia.
    rewrite (Z.rem_mul_r x 256 (256 ^ Z.of_nat n)) by lia. lia.
Qed.

Lemma abi_decode_encode_address a :
  0 <= a <= MAX_ADDRESS -> abi_decode_address (abi_encode_address a) = Ok a.
Proof.
  intros Ha. unfold abi_decode_address, abi_encode_address.
  rewrite be_encode_length. simpl (32 <? 32)%nat. cbv iota.
  rewrite take_ge by (rewrite be_encode_length; lia).
  rewrite be_decode_encode.
  assert (Hsmall : a mod 256 ^ Z.of_nat 32 = a).
  { apply Z.mod_small. unfold MAX_ADDRESS in Ha. lia. }
  rewrite Hsmall. rewrite (proj2 (Z.leb_le _ _)) by lia. reflexivity.
Qed.

Lemma usage_of_set_usage account n st a :
  usage_of (set_usage account n st) a = if a =? account then n else usage_of st a.
Proof.
  unfold usage_of, set_usage, mapping_get. simpl.
  destruct (Z.eqb_spec a account) as [->|Hne].
  - rewrite lookup_insert_eq. reflexivity.
  - rewrite lookup_insert_ne by congruence. reflexivity.
Qed.

Lemma shut_down_rejects st :
  isShutdown st = true -> notShutdown st = Reverted (Error "Paymaster is shut down").
Proof. intros H. unfold notShutdown. rewrite H. reflexivity. Qed.

Ltac guards :=
  repeat match goal with
  | |- context [onlyOwner ?env ?st] =>
      unfold onlyOwner; destruct (owner st =? msg_sender env); cbn [bind]
  | |- context [external_call ?env] => destruct (external_call env); cbn [bind]
  | |- context [notShutdown ?st] =>
      unfold notShutdown, require; destruct (isShutdown st) eqn:?; cbn [bind negb]
  end.

(** Every function keeps the flag once it is set. *)
Lemma dispatch_keeps_shutdown env f st st' :
  isShutdown st = true -> dispatch env f st = Ok st' -> isShutdown st' = true.
Proof.
  intros Hshut. destruct f; simpl;
    unfold addSponsoredAccount, removeSponsoredAccount, validatePaymasterUserOp,
      postOp, deposit, withdrawFromEntryPoint, withdraw, shutdown,
      transferOwnership, renounceOwnership;
    rewrite ?(shut_down_rejects st Hshut); cbn [bind];
    guards; try discriminate; try (intros [= <-]; assumption || reflexivity).
  destruct (newOwner =? 0); [discriminate|]. intros [= <-]. assumption.
Qed.

Lemma transact_keeps_shutdown st tx :
  isShutdown st = true -> isShutdown (transact st tx) = true.
Proof.
  intros Hshut. unfold transact.
  destruct (dispatch (fst tx) (snd tx) st) as [st'|err] eqn:Hrun; simpl.
  - eapply dispatch_keeps_shutdown; eassumption.
  - exact Hshut.
Qed.

Lemma run_keeps_shutdown txs st :
  isShutdown st = true -> isShutdown (run txs st) = true.
Proof.
  revert st. induction txs as [|tx txs IH]; intros st Hshut; simpl.
  - exact Hshut.
  - apply IH, transact_keeps_shutdown, Hshut.
Qed.

(** No function lowers a usage counter. *)
Lemma dispatch_usage_monotone env f st st' a :
  well_typed f -> dispatch env f st = Ok st' -> usage_of st a <= usage_of st' a.
Proof.
  intros Htyped. destruct f; simpl;
    unfold addSponsoredAccount, removeSponsoredAccount,
      postOp, deposit, withdrawFromEntryPoint, withdraw, shutdown,
      transferOwnership, renounceOwnership;
    guards; try discriminate;
    try match goal with
        | |- Ok _ = Ok _ -> _ => intros [= <-]; reflexivity
        end.
  - destruct (validatePaymasterUserOp _ _ _ _ _); cbn [bind]; [|discriminate].
    intros [= <-]. reflexivity.
  - destruct (entryPoint st =? msg_sender env); cbn [bind]; [|discriminate].
    destruct (abi_decode_address context) as [account|]; cbn [bind]; [|discriminate].
    unfold checked_add.
    destruct (usage_of st account + actualGasCost <=? MAX_UINT256); cbn [bind];
      [|discriminate].
    intros [= <-]. rewrite usage_of_set_usage.
    simpl in Htyped. unfold is_uint256 in Htyped.
    destruct (Z.eqb_spec a account); subst; lia.
  - destruct (newOwner =? 0); [discriminate|]. intros [= <-]. reflexivity.
Qed.

(** The context of an admitted operation is the encoding of its sender. *)
Lemma validate_context env userOp userOpHash maxCost st context validationData :
  validatePaymasterUserOp env userOp userOpHash maxCost st
  = Ok (context, validationData) ->
  context = abi_encode_address (sender userOp).
Proof.
  unfold validatePaymasterUserOp.
  destruct (notShutdown st); cbn [bind]; [|discriminate].
  destruct (require (entryPoint st =? _) _); cbn [bind]; [|discriminate].
  destruct (require (preVerificationGas userOp <=? _) _); cbn [bind]; [|discriminate].
  destruct (require (entryPoint_balanceOf env >=? _) _); cbn [bind]; [|discriminate].
  destruct (_parseGasFees (gasFees userOp)) as [fee tip].
  destruct (require (fee <=? _) _); cbn [bind]; [|discriminate].
  destruct (require (sponsored st _) _); cbn [bind]; [|discriminate].
  intros [= <- _]. reflexivity.
Qed.

(** C5: the function makes six checks, in this order: the gate is not shut
    down, the caller is the EntryPoint, the pre-verification gas of the
    operation is within the gas ceiling, the deposit the EntryPoint holds
    covers the declared cost, the declared fee rate is within the fee
    ceiling, the account is whitelisted. The operation is admitted exactly
    when all hold, and otherwise the reason reported is the one of the first
    check of this order that fails. *)
Theorem validatePaymasterUserOp_first_failure env userOp userOpHash maxCost st :
  validatePaymasterUserOp env userOp userOpHash maxCost st =
  match first_failure (admission_checks env userOp maxCost st) with
  | Some reason => Reverted (Error reason)
  | None => Ok (abi_encode_address (sender userOp), 0)
  end.
Proof.
  unfold validatePaymasterUserOp, notShutdown, first_failure, admission_checks,
    require.
  destruct (_parseGasFees (gasFees userOp)) as [fee tip]. simpl.
  destruct (isShutdown st); simpl; [reflexivity|].
  destruct (entryPoint st =? msg_sender env); simpl; [|reflexivity].
  destruct (preVerificationGas userOp <=? MAX_GAS_LIMIT); simpl; [|reflexivity].
  destruct (entryPoint_balanceOf env >=? maxCost); simpl; [|reflexivity].
  destruct (fee <=? MAX_FEE_PER_GAS); simpl; [|reflexivity].
  destruct (sponsored st (sender userOp)); reflexivity.
Qed.

(** C6: an operation that passes every other check is rejected for
    insufficient funds when the deposit is one short of the declared cost and
    admitted when the deposit equals it. *)
Theorem funded_balance_boundary env userOp userOpHash maxCost st :
  isShutdown st = false ->
  entryPoint st = msg_sender env ->
  preVerificationGas userOp <= MAX_GAS_LIMIT ->
  fst (_parseGasFees (gasFees userOp)) <= MAX_FEE_PER_GAS ->
  sponsored st (sender userOp) = true ->
  (entryPoint_balanceOf env = maxCost - 1 ->
     validatePaymasterUserOp env userOp userOpHash maxCost st
     = Reverted (Error "Insufficient funds for gas"))
  /\ (entryPoint_balanceOf env = maxCost ->
     validatePaymasterUserOp env userOp userOpHash maxCost st
     = Ok (abi_encode_address (sender userOp), 0)).
Proof.
  intros Hopen Hcaller Hgas Hfee Hlisted.
  unfold validatePaymasterUserOp, notShutdown, require.
  rewrite Hopen, (proj2 (Z.eqb_eq _ _) Hcaller), (proj2 (Z.leb_le _ _) Hgas).
  cbn [negb bind].
  destruct (_parseGasFees (gasFees userOp)) as [fee tip]. cbn [fst] in Hfee.
  rewrite (proj2 (Z.leb_le _ _) Hfee), Hlisted.
  split; intros Hbalance; rewrite Hbalance, Z.geb_leb.
  - rewrite (proj2 (Z.leb_gt _ _)) by lia. reflexivity.
  - rewrite Z.leb_refl. reflexivity.
Qed.

(** C8: a completed [postOp] has added the actual cost to the usage counter
    of the account its context decodes to, and to no other; the context
    [validatePaymasterUserOp] returns for an operation decodes to the sender
    of that operation; no call of any function lowers a usage counter.
    [postOp] completes when the gate is not shut down, the caller is the
    EntryPoint, the context decodes and the sum does not overflow; it reverts
    in every state in which the gate is shut down. *)
Theorem postOp_records_usage env mode context actualGasCost fee st :
  is_uint256 actualGasCost ->
  (forall st',
     postOp env mode context actualGasCost fee st = Ok st' ->
     exists account,
       abi_decode_address context = Ok account
       /\ usage_of st' account = usage_of st account + actualGasCost
       /\ forall a, a <> account -> usage_of st' a = usage_of st a)
  /\ (forall env' userOp userOpHash maxCost validationData,
       0 <= sender userOp <= MAX_ADDRESS ->
       validatePaymasterUserOp env' userOp userOpHash maxCost st
       = Ok (context, validationData) ->
       abi_decode_address context = Ok (sender userOp))
  /\ (forall env' f a,
       well_typed f -> usage_of st a <= usage_of (transact st (env', f)) a)
  /\ (forall account,
       isShutdown st = false ->
       entryPoint st = msg_sender env ->
       abi_decode_address context = Ok account ->
       usage_of st account + actualGasCost <= MAX_UINT256 ->
       postOp env mode context actualGasCost fee st
       = Ok (set_usage account (usage_of st account + actualGasCost) st))
  /\ (isShutdown st = true ->
       postOp env mode context actualGasCost fee st
       = Reverted (Error "Paymaster is shut down")).
Proof.
  intros Hcost. split; [|split; [|split; [|split]]].
  - intros st'. unfold postOp, notShutdown, require, checked_add.
    destruct (isShutdown st); cbn [bind negb]; [discriminate|].
    destruct (entryPoint st =? msg_sender env); cbn [bind]; [|discriminate].
    destruct (abi_decode_address context) as [account|]; cbn [bind]; [|discriminate].
    destruct (usage_of st account + actualGasCost <=? MAX_UINT256); cbn [bind];
      [|discriminate].
    intros [= <-]. exists account. split; [reflexivity|]. split.
    + rewrite usage_of_set_usage, Z.eqb_refl. reflexivity.
    + intros a Hne. rewrite usage_of_set_usage.
      destruct (Z.eqb_spec a account); [contradiction|reflexivity].
  - intros env' userOp userOpHash maxCost validationData Haddr.
    intros Hadmit. rewrite (validate_context _ _ _ _ _ _ _ Hadmit).
    apply abi_decode_encode_address. exact Haddr.
  - intros env' f a Htyped. unfold transact. simpl.
    destruct (dispatch env' f st) as [st'|err] eqn:Hrun; simpl; [|lia].
    eapply dispatch_usage_monotone; eassumption.
  - intros account Hopen Hcaller Hdecode Hsum.
    unfold postOp, notShutdown, require, checked_add.
    rewrite Hopen, (proj2 (Z.eqb_eq _ _) Hcaller), Hdecode. cbn [bind negb].
    rewrite (proj2 (Z.leb_le _ _) Hsum). reflexivity.
  - intros Hshut. unfold postOp. rewrite (shut_down_rejects st Hshut). reflexivity.
Qed.

(** C10: once [shutdown] has completed, the flag is set and stays set
    through every sequence of calls; in every such later state
    [validatePaymasterUserOp] and [postOp] revert with the shutdown error for
    every caller, and [withdraw] reverts for every caller: with the shutdown
    error when the administrator calls, with the ownership error for anybody
    else. *)
Theorem shutdown_is_permanent env0 st0 st txs :
  shutdown env0 st0 = Ok st ->
  isShutdown st = true
  /\ isShutdown (run txs st) = true
  /\ (forall env userOp userOpHash maxCost,
       validatePaymasterUserOp env userOp userOpHash maxCost (run txs st)
       = Reverted (Error "Paymaster is shut down"))
  /\ (forall env mode context actualGasCost fee,
       postOp env mode context actualGasCost fee (run txs st)
       = Reverted (Error "Paymaster is shut down"))
  /\ (forall env,
       withdraw env (run txs st)
       = if owner (run txs st) =? msg_sender env
         then Reverted (Error "Paymaster is shut down")
         else Reverted (OwnableUnauthorizedAccount (msg_sender env))).
Proof.
  intros Hdone.
  assert (Hset : isShutdown st = true).
  { revert Hdone. unfold shutdown. guards; try discriminate.
    intros [= <-]. reflexivity. }
  pose proof (run_keeps_shutdown txs st Hset) as Hlater.
  split; [exact Hset|]. split; [exact Hlater|]. split; [|split].
  - intros env userOp userOpHash maxCost. unfold validatePaymasterUserOp.
    rewrite (shut_down_rejects _ Hlater). reflexivity.
  - intros env mode context actualGasCost fee. unfold postOp.
    rewrite (shut_down_rejects _ Hlater). reflexivity.
  - intros env. unfold withdraw, onlyOwner.
    destruct (owner (run txs st) =? msg_sender env); cbn [bind]; [|reflexivity].
    rewrite (shut_down_rejects _ Hlater). reflexivity.
Qed.

Section Examples.
Import PaymasterDemo.

(** Against C5 as it is worded: with the deposit too small and the fee rate
    too high at once, the function reports the deposit, while the order of
    the specification calls for the fee rate. *)
Lemma admission_order_counterexample :
  validatePaymasterUserOp (as_entryPoint 0) (op (200 * 10 ^ 9)) 0 1000 open_gate
  = Reverted (Error "Insufficient funds for gas")
  /\ spec_admit (as_entryPoint 0) (op (200 * 10 ^ 9)) 1000 open_gate
     = Reverted (Error "Gas fee too high")
  /\ validatePaymasterUserOp (as_entryPoint 0) (op (200 * 10 ^ 9)) 0 1000 open_gate
     <> spec_admit (as_entryPoint 0) (op (200 * 10 ^ 9)) 1000 open_gate.
Proof.
  split; [vm_compute; reflexivity|].
  split; [vm_compute; reflexivity|].
  vm_compute. discriminate.
Qed.

Lemma funded_balance_boundary_witness :
  validatePaymasterUserOp (as_entryPoint 999) (op 5) 0 1000 open_gate
  = Reverted (Error "Insufficient funds for gas")
  /\ validatePaymasterUserOp (as_entryPoint 1000) (op 5) 0 1000 open_gate
     = Ok (abi_encode_address 10, 0).
Proof.
  split.
  - apply (proj1 (funded_balance_boundary (as_entryPoint 999) (op 5) 0 1000 open_gate
                    eq_refl eq_refl
                    ltac:(vm_compute; discriminate) ltac:(vm_compute; discriminate)
                    eq_refl)).
    reflexivity.
  - apply (proj2 (funded_balance_boundary (as_entryPoint 1000) (op 5) 0 1000 open_gate
                    eq_refl eq_refl
                    ltac:(vm_compute; discriminate) ltac:(vm_compute; discriminate)
                    eq_refl)).
    reflexivity.
Defined.

(** Against C8 as it is worded: an operation is admitted, the administrator
    shuts the gate down, and the recording step for that operation reverts. *)
Lemma postOp_reverts_after_shutdown :
  validatePaymasterUserOp (as_entryPoint 5000) (op 5) 0 1000 open_gate
  = Ok (abi_encode_address 10, 0)
  /\ shutdown as_owner open_gate = Ok shut_gate
  /\ postOp (as_entryPoint 5000) opSucceeded (abi_encode_address 10) 21000 5
       shut_gate
     = Reverted (Error "Paymaster is shut down").
Proof.
  split; [vm_compute; reflexivity|].
  split; vm_compute; reflexivity.
Qed.

Lemma postOp_records_usage_witness :
  is_uint256 21000
  /\ postOp (as_entryPoint 5000) opSucceeded (abi_encode_address 10) 21000 5
       open_gate
     = Ok (set_usage 10 (usage_of open_gate 10 + 21000) open_gate).
Proof.
  assert (Hcost : is_uint256 21000) by (split; vm_compute; discriminate).
  split; [exact Hcost|].
  apply (proj1 (proj2 (proj2 (proj2
           (postOp_records_usage (as_entryPoint 5000) opSucceeded
              (abi_encode_address 10) 21000 5 open_gate Hcost)))) 10).
  - reflexivity.
  - reflexivity.
  - vm_compute. reflexivity.
  - vm_compute. discriminate.
Defined.

(** Against C10 as it is worded: after the shutdown, [withdraw] called by
    somebody who is not the administrator reverts with the ownership error,
    not with the shutdown error. *)
Lemma withdraw_by_stranger_after_shutdown :
  shutdown as_owner open_gate = Ok shut_gate
  /\ withdraw as_stranger shut_gate = Reverted (OwnableUnauthorizedAccount 9)
  /\ withdraw as_stranger shut_gate <> Reverted (Error "Paymaster is shut down").
Proof.
  split; [vm_compute; reflexivity|].
  split; [vm_compute; reflexivity|].
  vm_compute. discriminate.
Qed.

Lemma shutdown_is_permanent_witness :
  shutdown as_owner open_gate = Ok shut_gate
  /\ isShutdown
       (run [(as_owner, AddSponsoredAccount 11); (as_owner, Deposit)] shut_gate)
     = true
  /\ withdraw as_owner
       (run [(as_owner, AddSponsoredAccount 11); (as_owner, Deposit)] shut_gate)
     = Reverted (Error "Paymaster is shut down").
Proof.
  assert (Hdone : shutdown as_owner open_gate = Ok shut_gate)
    by (vm_compute; reflexivity).
  destruct (shutdown_is_permanent as_owner open_gate shut_gate
              [(as_owner, AddSponsoredAccount 11); (as_owner, Deposit)] Hdone)
    as [_ [Hlater [_ [_ Hwithdraw]]]].
  split; [exact Hdone|]. split; [exact Hlater|].
  rewrite Hwithdraw. reflexivity.
Defined.

End Examples.
End PaymasterSpec.


(** * Further properties of EIP7702Delegate.sol *)
Module DelegateExtra.
Import Delegate DelegateAudit.

Section Frames.
Context {W : Type}.
Variable extern : Env -> address -> uint256 -> list Byte.byte -> W -> @Ext W.
Variable reenter : @Handler W.
Variable env : Env.

Lemma write_key_overwrite account sessionKey k0 k (c : @Chain W) :
  write_key account sessionKey k (write_key account sessionKey k0 c)
  = write_key account sessionKey k c.
Proof.
  unfold write_key, set_storage, mapping_get. simpl. do 2 f_equal.
  rewrite lookup_insert_eq. simpl.
  rewrite !insert_insert_eq. reflexivity.
Qed.

(** X1: an empty batch sent by the account makes no call and still counts:
    it succeeds, advances the nonce by one and records the batch with the
    nonce it started from; the world and the session keys are as before. *)
Theorem executeBatch_empty msg_sender (c : @Chain W) :
  msg_sender = this env ->
  nonce_of c msg_sender < MAX_UINT256 ->
  exists c',
    executeBatch extern reenter env msg_sender [] c = Ok c'
    /\ nonce_of c' msg_sender = nonce_of c msg_sender + 1
    /\ logs c' = logs c ++ [BatchExecuted msg_sender (nonce_of c msg_sender)]
    /\ world c' = world c
    /\ sessionKeys (storage c') = sessionKeys (storage c).
Proof.
  intros Hsender Hnonce. eexists.
  unfold executeBatch, onlyDelegatingAccount, require, checked_add.
  rewrite (proj2 (Z.eqb_eq _ _) Hsender). cbn [bind].
  rewrite (proj2 (Z.leb_le _ _)) by lia. cbn [bind run_calls].
  split; [reflexivity|]. split.
  - change (nonce_of (emit ?e ?x) ?a) with (nonce_of x a).
    rewrite DelegateSpec.nonce_of_write_nonce, Z.eqb_refl. reflexivity.
  - repeat split.
Qed.

(** X2: when the nonce of the account has reached the largest uint256, every
    batch reverts with the arithmetic panic before any call is made: the
    counter fails rather than wraps. *)
Theorem executeBatch_nonce_exhausted msg_sender calls (c : @Chain W) :
  msg_sender = this env ->
  MAX_UINT256 <= nonce_of c msg_sender ->
  executeBatch extern reenter env msg_sender calls c = Reverted (Panic 17).
Proof.
  intros Hsender Hfull.
  unfold executeBatch, onlyDelegatingAccount, require, checked_add.
  rewrite (proj2 (Z.eqb_eq _ _) Hsender). cbn [bind].
  rewrite (proj2 (Z.leb_gt _ _)) by lia. reflexivity.
Qed.

(** X3: why [executeWithSessionKey] rejects. A caller that is not the
    transaction's origin and holds no valid key is "Unauthorized", whether
    its key is missing, revoked or expired; the origin calling for itself
    needs a key of its own: without an active one it gets "Session key not
    active", with an expired one "Session key expired". *)
Theorem executeWithSessionKey_rejections msg_sender t v d (c : @Chain W) :
  (msg_sender <> tx_origin env ->
   isValidSessionKey env msg_sender (tx_origin env) c = false ->
   executeWithSessionKey extern reenter env msg_sender t v d c
   = Reverted (Error "Unauthorized"))
  /\ (msg_sender = tx_origin env ->
      isActive (key_of c msg_sender msg_sender) = false ->
      executeWithSessionKey extern reenter env msg_sender t v d c
      = Reverted (Error "Session key not active"))
  /\ (msg_sender = tx_origin env ->
      isActive (key_of c msg_sender msg_sender) = true ->
      validUntil (key_of c msg_sender msg_sender) < block_timestamp env ->
      executeWithSessionKey extern reenter env msg_sender t v d c
      = Reverted (Error "Session key expired")).
Proof.
  unfold executeWithSessionKey, onlyAccountOrSession.
  split; [|split].
  - intros Hother Hinvalid.
    rewrite (proj2 (Z.eqb_neq _ _)) by congruence. rewrite Hinvalid. reflexivity.
  - intros <- Hinactive. rewrite Z.eqb_refl. cbn [orb require bind].
    rewrite Hinactive. reflexivity.
  - intros <- Hactive Hpast. rewrite Z.eqb_refl. cbn [orb require bind].
    rewrite Hactive. cbn [require bind].
    rewrite (proj2 (Z.leb_gt _ _) Hpast). reflexivity.
Qed.

(** X4: a call made under a valid key and within the cap that fails gives
    back the failing call's own data, unchanged, and leaves the state as it
    was. *)
Theorem executeWithSessionKey_bubbles msg_sender t v d (c c' : @Chain W) reason :
  isActive (key_of c (tx_origin env) msg_sender) = true ->
  block_timestamp env <= validUntil (key_of c (tx_origin env) msg_sender) ->
  v <= maxValue (key_of c (tx_origin env) msg_sender) ->
  call extern reenter env t v d c = (false, reason, c') ->
  executeWithSessionKey extern reenter env msg_sender t v d c
  = Reverted (RevertData reason)
  /\ commit c (executeWithSessionKey extern reenter env msg_sender t v d c) = c.
Proof.
  intros Hactive Hnow Hcap Hcall.
  assert (Hrun : executeWithSessionKey extern reenter env msg_sender t v d c
                 = Reverted (RevertData reason)).
  { unfold executeWithSessionKey, onlyAccountOrSession, isValidSessionKey.
    rewrite Hactive, (proj2 (Z.leb_le _ _) Hnow), orb_true_r. cbn [require bind].
    rewrite (proj2 (Z.leb_le _ _) Hcap). cbn [require bind].
    rewrite Hcall. reflexivity. }
  rewrite Hrun. split; reflexivity.
Qed.

(** X5: revoking touches one entry and nothing else: every other session
    key, every nonce, the log (no event is emitted) and the world are as
    before; only the account itself gets that far. *)
Theorem revokeSessionKey_frame msg_sender sessionKey (c c' : @Chain W) :
  revokeSessionKey env msg_sender sessionKey c = Ok c' ->
  msg_sender = this env
  /\ (forall a k, (a, k) <> (msg_sender, sessionKey) -> key_of c' a k = key_of c a k)
  /\ (forall a, nonce_of c' a = nonce_of c a)
  /\ logs c' = logs c
  /\ world c' = world c.
Proof.
  unfold revokeSessionKey, onlyDelegatingAccount, require.
  destruct (Z.eqb_spec msg_sender (this env)) as [Hsender|]; cbn [bind];
    [|discriminate].
  intros [= <-]. split; [exact Hsender|]. split; [|repeat split].
  intros a k Hne. apply DelegateSpec.key_of_write_key_ne. exact Hne.
Qed.

(** X6: a grant erases a revocation without trace: granting after revoking
    gives the very state that granting directly gives, and revoking after a
    grant keeps the granted expiry and cap under a cleared flag. *)
Theorem grant_after_revoke msg_sender sessionKey until cap (c c1 : @Chain W) :
  revokeSessionKey env msg_sender sessionKey c = Ok c1 ->
  addSessionKey env msg_sender sessionKey until cap c1
  = addSessionKey env msg_sender sessionKey until cap c
  /\ exists c2 c3,
       addSessionKey env msg_sender sessionKey until cap c = Ok c2
       /\ revokeSessionKey env msg_sender sessionKey c2 = Ok c3
       /\ key_of c3 msg_sender sessionKey
          = {| validUntil := until; maxValue := cap; isActive := false |}.
Proof.
  unfold revokeSessionKey, addSessionKey, onlyDelegatingAccount, require.
  destruct (msg_sender =? this env); cbn [bind]; [|discriminate].
  intros [= <-]. split.
  - rewrite write_key_overwrite. reflexivity.
  - do 2 eexists. split; [reflexivity|]. split; [reflexivity|].
    rewrite DelegateSpec.key_of_write_key_eq.
    change (key_of (emit ?e ?x)) with (key_of x).
    rewrite DelegateSpec.key_of_write_key_eq. reflexivity.
Qed.

End Frames.

(** X7: validity only shrinks with time: on one state, a key that is valid
    at some time is valid at every earlier time, and a key that is invalid
    at some time is invalid at every later time. *)
Theorem isValidSessionKey_in_time {W : Type} (earlier later : Env)
    (sessionKey account : address) (c : @Chain W) :
  block_timestamp earlier <= block_timestamp later ->
  (isValidSessionKey later sessionKey account c = true ->
   isValidSessionKey earlier sessionKey account c = true)
  /\ (isValidSessionKey earlier sessionKey account c = false ->
      isValidSessionKey later sessionKey account c = false).
Proof.
  intros Htime. unfold isValidSessionKey.
  destruct (isActive (key_of c account sessionKey)); cbn [andb]; [|split; trivial].
  split.
  - rewrite !Z.leb_le. lia.
  - rewrite !Z.leb_gt. lia.
Qed.

(** X8: in a freshly delegated account nobody can use
    [executeWithSessionKey]: for every caller, target, value and time the call
    reverts, as "Session key not active" for the origin itself and as
    "Unauthorized" for everybody else. *)
Theorem executeWithSessionKey_fresh {W : Type}
    (extern : Env -> address -> uint256 -> list Byte.byte -> W -> @Ext W)
    (reenter : @Handler W) (env : Env) (w : W) msg_sender t v d :
  executeWithSessionKey extern reenter env msg_sender t v d (genesis w)
  = Reverted (Error (if msg_sender =? tx_origin env
                     then "Session key not active" else "Unauthorized")).
Proof.
  unfold executeWithSessionKey, onlyAccountOrSession, isValidSessionKey.
  rewrite (Z.eqb_sym msg_sender).
  destruct (tx_origin env =? msg_sender); reflexivity.
Qed.

Section Passive.
Context {W : Type}.
Variable extern : Env -> address -> uint256 -> list Byte.byte -> W -> @Ext W.
Hypothesis no_reentry : passive extern.

Lemma run_calls_world reenter env calls (c c' : @Chain W) :
  run_calls extern reenter env calls c = Ok c' ->
  c' = set_world (world c') c
  /\ forall d : @Chain W, world d = world c ->
       run_calls extern reenter env calls d = Ok (set_world (world c') d).
Proof.
  revert c. induction calls as [|cl calls IH]; intros c; cbn [run_calls].
  - intros [= <-]. split; [destruct c; reflexivity|].
    intros d Hd. rewrite <- Hd. destruct d; reflexivity.
  - unfold call.
    destruct (no_reentry env (target cl) (value cl) (data cl) (world c))
      as [ok [res [w' Hext]]].
    rewrite Hext. cbn [run_ext].
    destruct ok; [|discriminate]. intros Hrest.
    destruct (IH _ Hrest) as [Hc' Hany]. split; [exact Hc'|].
    intros d Hd. rewrite Hd, Hext. cbn [run_ext].
    apply (Hany (set_world w' d)). reflexivity.
Qed.

(** X9: two batches in a row do to the world what the one batch of all
    their calls does. When no target calls back and the account's batch
    [pre] and then its batch [post] succeed, the batch [pre ++ post] succeeds
    from the same start and leaves the same world and session keys; it
    advances the nonce once where the two advance it twice. *)
Theorem batches_compose reenter env msg_sender pre post (c c1 c2 : @Chain W) :
  executeBatch extern reenter env msg_sender pre c = Ok c1 ->
  executeBatch extern reenter env msg_sender post c1 = Ok c2 ->
  exists c',
    executeBatch extern reenter env msg_sender (pre ++ post) c = Ok c'
    /\ world c' = world c2
    /\ sessionKeys (storage c') = sessionKeys (storage c2)
    /\ nonce_of c2 msg_sender = nonce_of c' msg_sender + 1.
Proof.
  unfold executeBatch, onlyDelegatingAccount, require, checked_add.
  destruct (msg_sender =? this env); cbn [bind]; [|discriminate].
  destruct (nonce_of c msg_sender + 1 <=? MAX_UINT256); cbn [bind]; [|discriminate].
  destruct (run_calls extern reenter env pre _) as [d1|] eqn:Hpre; cbn [bind];
    [|discriminate].
  intros [= <-].
  destruct (nonce_of (emit _ d1) msg_sender + 1 <=? MAX_UINT256); cbn [bind];
    [|discriminate].
  destruct (run_calls extern reenter env post _) as [d2|] eqn:Hpost; cbn [bind];
    [|discriminate].
  intros [= <-].
  destruct (run_calls_world _ _ _ _ _ Hpre) as [Hd1 _].
  destruct (run_calls_world _ _ _ _ _ Hpost) as [Hd2 Hany].
  rewrite DelegateSpec.run_calls_app, Hpre. cbn [bind].
  rewrite (Hany d1) by reflexivity. cbn [bind].
  eexists. split; [reflexivity|]. split; [reflexivity|]. split.
  - rewrite Hd2, Hd1. reflexivity.
  - rewrite Hd2.
    change (nonce_of (emit ?e ?x) ?a) with (nonce_of x a).
    change (nonce_of (set_world ?w0 ?x) ?a) with (nonce_of x a).
    rewrite DelegateSpec.nonce_of_write_nonce, Z.eqb_refl.
    change (nonce_of (emit ?e ?x) ?a) with (nonce_of x a).
    rewrite Hd1.
    change (nonce_of (set_world ?w0 ?x) ?a) with (nonce_of x a).
    rewrite DelegateSpec.nonce_of_write_nonce, Z.eqb_refl. reflexivity.
Qed.

(** What one call appends to the log when no target calls back. *)
Lemma entry_passive_log depth env msg_sender f (c : @Chain W) r c' :
  entry extern depth env msg_sender f c = Ok (r, c') ->
  (logs c' = logs c /\ forall a, nonce_of c' a = nonce_of c a)
  \/ (exists k u, logs c' = logs c ++ [SessionKeyAdded msg_sender k u]
      /\ forall a, nonce_of c' a = nonce_of c a)
  \/ (msg_sender = this env
      /\ logs c' = logs c ++ [BatchExecuted msg_sender (nonce_of c msg_sender)]
      /\ forall a, nonce_of c' a
                   = if a =? msg_sender then nonce_of c a + 1 else nonce_of c a).
Proof.
  destruct depth as [|depth]; [discriminate|]. cbn [entry].
  destruct f; cbn [dispatch].
  - unfold executeBatch, onlyDelegatingAccount, require, checked_add.
    destruct (Z.eqb_spec msg_sender (this env)) as [Hsender|]; cbn [bind];
      [|discriminate].
    destruct (nonce_of c msg_sender + 1 <=? MAX_UINT256); cbn [bind]; [|discriminate].
    destruct (run_calls extern _ env calls _) as [c2|] eqn:Hrun; cbn [bind];
      [|discriminate].
    intros [= _ <-]. right. right.
    destruct (run_calls_world _ _ _ _ _ Hrun) as [Hc2 _].
    split; [exact Hsender|]. rewrite Hc2. split; [reflexivity|].
    intros a. change (nonce_of (emit ?e ?x) ?b) with (nonce_of x b).
    change (nonce_of (set_world ?w0 ?x) ?b) with (nonce_of x b).
    rewrite DelegateSpec.nonce_of_write_nonce.
    destruct (Z.eqb_spec a msg_sender); subst; reflexivity.
  - unfold addSessionKey, onlyDelegatingAccount, require.
    destruct (msg_sender =? this env); cbn [bind]; [|discriminate].
    intros [= _ <-]. right. left. do 2 eexists. split; reflexivity.
  - unfold executeWithSessionKey.
    destruct (onlyAccountOrSession env msg_sender c); cbn [bind]; [|discriminate].
    destruct (require (isActive _) _); cbn [bind]; [|discriminate].
    destruct (require (block_timestamp env <=? _) _); cbn [bind]; [|discriminate].
    destruct (require (value0 <=? _) _); cbn [bind]; [|discriminate].
    destruct (call extern _ env _ _ _ c) as [[ok res] c1] eqn:Hcall.
    destruct ok; cbn [bind]; [|discriminate].
    intros [= _ <-]. left.
    destruct (DelegateSpec.call_passive extern _ env no_reentry _ _ _ _ _ _ _ Hcall)
      as [Hs Hl].
    split; [exact Hl|]. intros acct. unfold nonce_of. rewrite Hs. reflexivity.
  - intros [= _ <-]. left. split; reflexivity.
  - unfold revokeSessionKey, onlyDelegatingAccount, require.
    destruct (msg_sender =? this env); cbn [bind]; [|discriminate].
    intros [= _ <-]. left. split; reflexivity.
  - intros [= _ <-]. left. split; reflexivity.
  - intros [= _ <-]. left. split; reflexivity.
  - intros [= _ <-]. left. split; reflexivity.
  - intros [= _ <-]. left. split; reflexivity.
Qed.

(** X10: when no target calls back, a call that does not come from the
    account itself changes neither the storage nor the log, whatever function
    it runs: nonces and session keys are the account's alone to change. *)
Theorem outsider_changes_nothing depth env msg_sender f (c : @Chain W) r c' :
  msg_sender <> this env ->
  entry extern depth env msg_sender f c = Ok (r, c') ->
  storage c' = storage c /\ logs c' = logs c.
Proof.
  intros Hother.
  destruct depth as [|depth]; [discriminate|]. cbn [entry].
  assert (Hguard : onlyDelegatingAccount env msg_sender
                   = Reverted (Error "Not delegating account")).
  { unfold onlyDelegatingAccount, require.
    rewrite (proj2 (Z.eqb_neq _ _) Hother). reflexivity. }
  destruct f; cbn [dispatch].
  - unfold executeBatch. rewrite Hguard. discriminate.
  - unfold addSessionKey. rewrite Hguard. discriminate.
  - unfold executeWithSessionKey.
    destruct (onlyAccountOrSession env msg_sender c); cbn [bind]; [|discriminate].
    destruct (require (isActive _) _); cbn [bind]; [|discriminate].
    destruct (require (block_timestamp env <=? _) _); cbn [bind]; [|discriminate].
    destruct (require (value0 <=? _) _); cbn [bind]; [|discriminate].
    destruct (call extern _ env _ _ _ c) as [[ok res] c1] eqn:Hcall.
    destruct ok; cbn [bind]; [|discriminate].
    intros [= _ <-].
    apply (DelegateSpec.call_passive extern _ env no_reentry _ _ _ _ _ _ _ Hcall).
  - intros [= _ <-]. split; reflexivity.
  - unfold revokeSessionKey. rewrite Hguard. discriminate.
  - intros [= _ <-]. split; reflexivity.
  - intros [= _ <-]. split; reflexivity.
  - intros [= _ <-]. split; reflexivity.
  - intros [= _ <-]. split; reflexivity.
Qed.

Lemma batch_nonces_app a l1 l2 :
  batch_nonces a (l1 ++ l2) = batch_nonces a l1 ++ batch_nonces a l2.
Proof.
  induction l1 as [|[b n|b k u] l1 IH]; cbn [batch_nonces app]; [reflexivity| |exact IH].
  destruct (b =? a); [cbn [app]; f_equal|]; exact IH.
Qed.

(** X11: when no target calls back, the completed batches of an account are
    on record with the nonces 0, 1, 2, ... in this order, one for each value
    the nonce has passed: every batch is recorded with the nonce it started
    from, and none is missing or recorded twice. *)
Theorem batch_nonces_consecutive self (c : @Chain W) :
  reachable extern self c ->
  batch_nonces self (logs c) = seqZ 0 (nonce_of c self).
Proof.
  intros Hreach.
  assert (Hnonneg : forall x : @Chain W, reachable extern self x -> 0 <= nonce_of x self).
  { intros x Hx. rewrite (DelegateSpec.reachable_nonce extern self x self Hx).
    apply DelegateSpec.count_batches_nonneg. }
  induction Hreach as [w|c w Hc IH|c depth env msg_sender f Hself Hc IH].
  - reflexivity.
  - exact IH.
  - pose proof (Hnonneg c Hc) as Hpos. unfold transact.
    destruct (entry extern depth env msg_sender f c) as [[r c']|err] eqn:Hrun;
      cbn [bind commit snd]; [|exact IH].
    destruct (entry_passive_log _ _ _ _ _ _ _ Hrun)
      as [[Hl Hn]|[[k [u [Hl Hn]]]|[Hsender [Hl Hn]]]].
    + rewrite Hl, Hn. exact IH.
    + rewrite Hl, Hn, batch_nonces_app, IH. cbn [batch_nonces].
      apply app_nil_r.
    + rewrite Hl, Hn, batch_nonces_app, IH. subst msg_sender. rewrite Hself.
      cbn [batch_nonces]. rewrite Z.eqb_refl.
      rewrite (seqZ_app 0 (nonce_of c self) 1) by lia.
      rewrite Z.add_0_l. reflexivity.
Qed.

End Passive.

Section Ownership.
Context {W : Type}.
Variable extern : Env -> address -> uint256 -> list Byte.byte -> W -> @Ext W.
Variable self : address.

Section Frame.
Variable reenter : @Handler W.
Variable env : Env.
Hypothesis env_self : this env = self.
Hypothesis reenter_owned :
  forall s f (c : @Chain W) r c',
    own_slots_only self c -> reenter s f c = Ok (r, c') -> own_slots_only self c'.

Lemma run_ext_owned e (c : @Chain W) success result c' :
  own_slots_only self c ->
  run_ext reenter e c = (success, result, c') -> own_slots_only self c'.
Proof.
  revert c. induction e as [ok res w|s f w k IH]; intros c Hc; cbn [run_ext].
  - intros [= _ _ <-]. exact Hc.
  - destruct (reenter s f (set_world w c)) as [[r c1]|err] eqn:Hre; intros Hrun.
    + eapply IH; [|exact Hrun]. eapply reenter_owned; [|exact Hre]. exact Hc.
    + eapply IH; [|exact Hrun]. exact Hc.
Qed.

Lemma call_owned t v d (c : @Chain W) success result c' :
  own_slots_only self c ->
  call extern reenter env t v d c = (success, result, c') -> own_slots_only self c'.
Proof.
  intros Hc. unfold call.
  destruct (run_ext reenter _ c) as [[ok res] c1] eqn:Hrun.
  destruct ok; intros [= _ _ <-]; [|exact Hc].
  eapply run_ext_owned; eassumption.
Qed.

Lemma run_calls_owned calls (c c' : @Chain W) :
  own_slots_only self c ->
  run_calls extern reenter env calls c = Ok c' -> own_slots_only self c'.
Proof.
  revert c. induction calls as [|cl calls IH]; intros c Hc; cbn [run_calls].
  - intros [= <-]. exact Hc.
  - destruct (call extern reenter env _ _ _ c) as [[ok res] c1] eqn:Hcall.
    destruct ok; [|discriminate]. apply IH.
    eapply call_owned; eassumption.
Qed.

Lemma write_nonce_owned n (c : @Chain W) :
  own_slots_only self c -> own_slots_only self (write_nonce self n c).
Proof.
  intros Hc a Ha. destruct (Hc a Ha) as [Hn Hk]. split; [|exact Hk].
  rewrite DelegateSpec.nonce_of_write_nonce.
  rewrite (proj2 (Z.eqb_neq _ _) Ha). exact Hn.
Qed.

Lemma write_key_owned k v (c : @Chain W) :
  own_slots_only self c -> own_slots_only self (write_key self k v c).
Proof.
  intros Hc a Ha. destruct (Hc a Ha) as [Hn Hk]. split; [exact Hn|].
  intros k'. rewrite DelegateSpec.key_of_write_key_ne by congruence. apply Hk.
Qed.

Lemma dispatch_owned msg_sender f (c : @Chain W) r c' :
  own_slots_only self c ->
  dispatch extern reenter env msg_sender f c = Ok (r, c') -> own_slots_only self c'.
Proof.
  intros Hc. destruct f; cbn [dispatch].
  - unfold executeBatch, onlyDelegatingAccount, require, checked_add.
    destruct (Z.eqb_spec msg_sender (this env)) as [Hsender|]; cbn [bind];
      [|discriminate].
    destruct (nonce_of c msg_sender + 1 <=? MAX_UINT256); cbn [bind]; [|discriminate].
    destruct (run_calls extern reenter env calls _) as [c2|] eqn:Hrun; cbn [bind];
      [|discriminate].
    intros [= _ <-].
    assert (Hc2 : own_slots_only self c2).
    { eapply run_calls_owned; [|exact Hrun].
      rewrite Hsender, env_self. apply write_nonce_owned, Hc. }
    exact Hc2.
  - unfold addSessionKey, onlyDelegatingAccount, require.
    destruct (Z.eqb_spec msg_sender (this env)) as [Hsender|]; cbn [bind];
      [|discriminate].
    intros [= _ <-]. rewrite Hsender, env_self.
    apply (write_key_owned _ _ c Hc).
  - unfold executeWithSessionKey.
    destruct (onlyAccountOrSession env msg_sender c); cbn [bind]; [|discriminate].
    destruct (require (isActive _) _); cbn [bind]; [|discriminate].
    destruct (require (block_timestamp env <=? _) _); cbn [bind]; [|discriminate].
    destruct (require (value0 <=? _) _); cbn [bind]; [|discriminate].
    destruct (call extern reenter env _ _ _ c) as [[ok res] c1] eqn:Hcall.
    destruct ok; cbn [bind]; [|discriminate].
    intros [= _ <-]. eapply call_owned; eassumption.
  - intros [= _ <-]. exact Hc.
  - unfold revokeSessionKey, onlyDelegatingAccount, require.
    destruct (Z.eqb_spec msg_sender (this env)) as [Hsender|]; cbn [bind];
      [|discriminate].
    intros [= _ <-]. rewrite Hsender, env_self. apply write_key_owned, Hc.
  - intros [= _ <-]. exact Hc.
  - intros [= _ <-]. exact Hc.
  - intros [= _ <-]. exact Hc.
  - intros [= _ <-]. exact Hc.
Qed.

End Frame.

Lemma entry_owned depth env msg_sender f (c : @Chain W) r c' :
  this env = self ->
  own_slots_only self c ->
  entry extern depth env msg_sender f c = Ok (r, c') -> own_slots_only self c'.
Proof.
  intros Hself. revert msg_sender f c r c'.
  induction depth as [|depth IH]; intros msg_sender f c r c' Hc; cbn [entry].
  - discriminate.
  - apply dispatch_owned; [exact Hself| |exact Hc].
    intros s g x y x' Hx. apply IH. exact Hx.
Qed.

(** X12: the storage of an account holds that account's data only. In every
    state the account can reach, whatever the targets of its calls do and
    however they call back, all nonces and all session keys filed under any
    other account read as never written; so no key filed under another
    account is ever valid there. *)
Theorem storage_is_the_accounts_own (c : @Chain W) :
  reachable extern self c ->
  own_slots_only self c
  /\ forall env a k, a <> self -> isValidSessionKey env k a c = false.
Proof.
  intros Hreach.
  assert (Hown : own_slots_only self c).
  { induction Hreach as [w|c w Hc IH|c depth env msg_sender f Hself Hc IH].
    - intros a Ha. split; [reflexivity|]. intros k. reflexivity.
    - exact IH.
    - unfold transact.
      destruct (entry extern depth env msg_sender f c) as [[r c']|err] eqn:Hrun;
        cbn [bind commit snd]; [|exact IH].
      eapply entry_owned; eassumption. }
  split; [exact Hown|].
  intros env a k Ha. unfold isValidSessionKey.
  destruct (Hown a Ha) as [_ Hkey]. rewrite Hkey. reflexivity.
Qed.

End Ownership.

Section Examples.
Import DelegateDemo Scenes.

Lemma executeBatch_empty_witness :
  exists c',
    executeBatch extern_passive (serve extern_passive) alice 1 [] (genesis 0) = Ok c'
    /\ nonce_of c' 1 = nonce_of (genesis 0) 1 + 1.
Proof.
  destruct (executeBatch_empty extern_passive (serve extern_passive) alice 1
              (genesis 0) eq_refl eq_refl) as [c' [Hrun [Hnonce _]]].
  exists c'. split; [exact Hrun | exact Hnonce].
Defined.

Lemma executeBatch_nonce_exhausted_witness :
  MAX_UINT256 <= nonce_of exhausted 1
  /\ executeBatch extern_passive (serve extern_passive) alice 1 [pay 5 10] exhausted
     = Reverted (Panic 17).
Proof.
  assert (Hfull : MAX_UINT256 <= nonce_of exhausted 1) by (vm_compute; discriminate).
  split; [exact Hfull|].
  apply (executeBatch_nonce_exhausted extern_passive (serve extern_passive) alice 1
           [pay 5 10] exhausted eq_refl Hfull).
Defined.

Lemma executeWithSessionKey_rejections_witness :
  executeWithSessionKey extern_passive (serve extern_passive) late 7 5 50 [] granted
  = Reverted (Error "Unauthorized")
  /\ executeWithSessionKey extern_passive (serve extern_passive) alice 1 5 50 [] granted
     = Reverted (Error "Session key not active").
Proof.
  split.
  - apply (proj1 (executeWithSessionKey_rejections extern_passive
                    (serve extern_passive) late 7 5 50 [] granted)).
    + vm_compute. discriminate.
    + reflexivity.
  - apply (proj1 (proj2 (executeWithSessionKey_rejections extern_passive
                    (serve extern_passive) alice 1 5 50 [] granted))).
    + reflexivity.
    + reflexivity.
Defined.

Lemma executeWithSessionKey_bubbles_witness :
  executeWithSessionKey extern_passive (serve extern_passive) alice 7 13 0 [] granted
  = Reverted (RevertData [Byte.xde; Byte.xad])
  /\ commit granted
       (executeWithSessionKey extern_passive (serve extern_passive) alice 7 13 0 []
          granted)
     = granted.
Proof.
  eapply (executeWithSessionKey_bubbles extern_passive (serve extern_passive)
            alice 7 13 0 [] granted).
  - reflexivity.
  - vm_compute. discriminate.
  - vm_compute. discriminate.
  - reflexivity.
Defined.

Lemma revokeSessionKey_frame_witness :
  exists c',
    revokeSessionKey alice 1 7 granted = Ok c'
    /\ logs c' = logs granted
    /\ nonce_of c' 1 = nonce_of granted 1.
Proof.
  eexists. split; [reflexivity|].
  destruct (revokeSessionKey_frame alice 1 7 granted _ eq_refl)
    as [_ [_ [Hnonce [Hlogs _]]]].
  split; [exact Hlogs | apply Hnonce].
Defined.

Lemma grant_after_revoke_witness :
  exists c1,
    revokeSessionKey alice 1 7 granted = Ok c1
    /\ addSessionKey alice 1 7 3000 50 c1 = addSessionKey alice 1 7 3000 50 granted.
Proof.
  eexists. split; [reflexivity|].
  apply (proj1 (grant_after_revoke alice 1 7 3000 50 granted _ eq_refl)).
Defined.

Lemma isValidSessionKey_in_time_witness :
  isValidSessionKey alice 7 1 granted = true
  /\ isValidSessionKey late 7 1 revoked = false.
Proof.
  assert (Hsoon : block_timestamp alice <= block_timestamp alice)
    by (vm_compute; discriminate).
  assert (Hlate : block_timestamp alice <= block_timestamp late)
    by (vm_compute; discriminate).
  split.
  - apply (proj1 (isValidSessionKey_in_time alice alice 7 1 granted Hsoon)).
    reflexivity.
  - apply (proj2 (isValidSessionKey_in_time alice late 7 1 revoked Hlate)).
    reflexivity.
Defined.

Lemma batches_compose_witness :
  exists c',
    executeBatch extern_passive (serve extern_passive) alice 1
      ([pay 5 10] ++ [pay 6 1]) (genesis 0) = Ok c'
    /\ world c' = 11.
Proof.
  destruct (batches_compose extern_passive DelegateSpec.extern_passive_is_passive
              (serve extern_passive) alice 1 [pay 5 10] [pay 6 1] (genesis 0) _ _
              eq_refl eq_refl) as [c' [Hrun [Hworld _]]].
  exists c'. split; [exact Hrun|]. rewrite Hworld. reflexivity.
Defined.

Lemma outsider_changes_nothing_witness :
  exists c',
    entry extern_passive 3 alice 7 (ExecuteWithSessionKey 5 50 []) granted
    = Ok (RUnit, c')
    /\ storage c' = storage granted.
Proof.
  eexists. split; [reflexivity|].
  apply (outsider_changes_nothing extern_passive DelegateSpec.extern_passive_is_passive
           3 alice 7 (ExecuteWithSessionKey 5 50 []) granted RUnit _).
  - vm_compute. discriminate.
  - reflexivity.
Defined.

Lemma two_batches_reachable : reachable extern_passive 1 two_batches.
Proof.
  unfold two_batches.
  apply reach_call; [reflexivity|]. apply reach_call; [reflexivity|].
  apply reach_genesis.
Defined.

Lemma batch_nonces_consecutive_witness :
  reachable extern_passive 1 two_batches
  /\ batch_nonces 1 (logs two_batches) = seqZ 0 (nonce_of two_batches 1).
Proof.
  split; [exact two_batches_reachable|].
  apply (batch_nonces_consecutive extern_passive DelegateSpec.extern_passive_is_passive
           1 two_batches two_batches_reachable).
Defined.

Lemma storage_is_the_accounts_own_witness :
  reachable extern_passive 1 two_batches
  /\ nonce_of two_batches 2 = 0.
Proof.
  split; [exact two_batches_reachable|].
  destruct (storage_is_the_accounts_own extern_passive 1 two_batches
              two_batches_reachable) as [Hown _].
  apply (Hown 2). vm_compute. discriminate.
Defined.

End Examples.

End DelegateExtra.

(** * Further properties of Paymaster.sol *)
Module PaymasterExtra.
Import Paymaster PaymasterAudit.

Lemma validate_as_checks env userOp userOpHash maxCost st :
  validatePaymasterUserOp env userOp userOpHash maxCost st =
  match first_failure (admission_checks env userOp maxCost st) with
  | Some reason => Reverted (Error reason)
  | None => Ok (abi_encode_address (sender userOp), 0)
  end.
Proof.
  unfold validatePaymasterUserOp, notShutdown, first_failure, admission_checks,
    require.
  destruct (_parseGasFees (gasFees userOp)) as [fee tip].
  cbn [find fst snd negb fmap option_fmap option_map bind].
  destruct (isShutdown st); cbn [negb bind]; [reflexivity|].
  destruct (entryPoint st =? msg_sender env); cbn [negb bind]; [|reflexivity].
  destruct (preVerificationGas userOp <=? MAX_GAS_LIMIT); cbn [negb bind];
    [|reflexivity].
  destruct (entryPoint_balanceOf env >=? maxCost); cbn [negb bind]; [|reflexivity].
  destruct (fee <=? MAX_FEE_PER_GAS); cbn [negb bind]; [|reflexivity].
  destruct (sponsored st (sender userOp)); reflexivity.
Qed.

(** X13: a caller that is neither the owner nor the EntryPoint cannot change
    the paymaster: whatever function it calls, with whatever arguments, the
    state afterwards is the state before. *)
Theorem stranger_changes_nothing env f st :
  msg_sender env <> owner st ->
  msg_sender env <> entryPoint st ->
  transact st (env, f) = st.
Proof.
  intros Howner Hentry. unfold transact. cbn [fst snd].
  assert (Hguard : onlyOwner env st
                   = Reverted (OwnableUnauthorizedAccount (msg_sender env))).
  { unfold onlyOwner. rewrite (proj2 (Z.eqb_neq _ _)) by congruence. reflexivity. }
  destruct f; cbn [dispatch];
    unfold addSponsoredAccount, removeSponsoredAccount, deposit,
      withdrawFromEntryPoint, withdraw, shutdown, transferOwnership,
      renounceOwnership;
    rewrite ?Hguard; try reflexivity.
  - destruct (validatePaymasterUserOp env userOp userOpHash maxCost st); reflexivity.
  - unfold postOp, notShutdown, require.
    rewrite (proj2 (Z.eqb_neq (entryPoint st) (msg_sender env))) by congruence.
    destruct (isShutdown st); reflexivity.
Qed.

(** X14: the whitelist answers what was last written. After the owner adds
    an account it is sponsored, after the owner removes it it is not, and no
    other account's entry, no usage counter and no flag moves; an operation
    of a removed account is never admitted. *)
Theorem whitelist_add_remove env account st :
  msg_sender env = owner st ->
  exists st1 st2,
    addSponsoredAccount env account st = Ok st1
    /\ removeSponsoredAccount env account st1 = Ok st2
    /\ sponsored st1 account = true
    /\ sponsored st2 account = false
    /\ (forall b, b <> account ->
          sponsored st1 b = sponsored st b /\ sponsored st2 b = sponsored st b)
    /\ (forall b, usage_of st1 b = usage_of st b /\ usage_of st2 b = usage_of st b)
    /\ isShutdown st1 = isShutdown st /\ isShutdown st2 = isShutdown st
    /\ (forall env' userOp userOpHash maxCost r,
          sender userOp = account ->
          validatePaymasterUserOp env' userOp userOpHash maxCost st2 <> Ok r).
Proof.
  intros Howner. do 2 eexists.
  unfold addSponsoredAccount, removeSponsoredAccount, onlyOwner.
  rewrite (proj2 (Z.eqb_eq (owner st) (msg_sender env))) by congruence.
  cbn [bind]. split; [reflexivity|].
  cbn [owner set_sponsored].
  rewrite (proj2 (Z.eqb_eq (owner st) (msg_sender env))) by congruence.
  cbn [bind]. split; [reflexivity|].
  assert (Hget : forall b v s, sponsored (set_sponsored account v s) b
                               = if b =? account then v else sponsored s b).
  { intros b v s. unfold sponsored, set_sponsored, mapping_get. cbn.
    destruct (Z.eqb_spec b account) as [->|Hne].
    - rewrite lookup_insert_eq. reflexivity.
    - rewrite lookup_insert_ne by congruence. reflexivity. }
  split; [rewrite Hget, Z.eqb_refl; reflexivity|].
  split; [rewrite Hget, Z.eqb_refl; reflexivity|].
  split.
  { intros b Hb. rewrite !Hget, (proj2 (Z.eqb_neq _ _) Hb). split; reflexivity. }
  split; [intros b; split; reflexivity|].
  split; [reflexivity|]. split; [reflexivity|].
  intros env' userOp userOpHash maxCost r Hsender.
  rewrite validate_as_checks.
  unfold first_failure, admission_checks.
  rewrite Hsender, Hget, Z.eqb_refl.
  cbn [find fst snd negb fmap option_fmap option_map].
  repeat match goal with
         | |- context [if negb ?b then _ else _] => destruct b; cbn [negb]
         | |- context [if ?b then _ else _] => destruct b
         end; cbn; discriminate.
Qed.

(** X15: a paymaster admits nothing until its whitelist is written: on the
    state the constructor leaves, every operation is rejected with a reason,
    for every caller, deposit and declared cost. *)
Theorem fresh_paymaster_admits_nothing deployer _entryPoint _accountFactory
    env userOp userOpHash maxCost :
  exists reason,
    validatePaymasterUserOp env userOp userOpHash maxCost
      (constructor deployer _entryPoint _accountFactory)
    = Reverted (Error reason).
Proof.
  rewrite validate_as_checks.
  unfold first_failure, admission_checks, constructor, sponsored, mapping_get.
  cbn [isShutdown entryPoint sponsoredAccounts negb].
  rewrite lookup_empty.
  cbn [find fst snd negb fmap option_fmap option_map default].
  repeat match goal with
         | |- context [if negb ?b then _ else _] => destruct b; cbn [negb]
         end; cbn; eexists; reflexivity.
Qed.

(** X16: [_parseGasFees] splits a 32-byte word into its two 16-byte halves,
    high half first, and loses nothing: the halves of [hi * 2^128 + lo] are
    [hi] and [lo], and every word is put together again from its halves. *)
Theorem parseGasFees_halves :
  (forall hi lo,
     0 <= hi < 2 ^ 128 -> 0 <= lo < 2 ^ 128 ->
     _parseGasFees (hi * 2 ^ 128 + lo) = (hi, lo))
  /\ (forall packedFees,
        0 <= packedFees <= MAX_UINT256 ->
        let '(maxFeePerGas, maxPriorityFeePerGas) := _parseGasFees packedFees in
        packedFees = maxFeePerGas * 2 ^ 128 + maxPriorityFeePerGas
        /\ 0 <= maxFeePerGas < 2 ^ 128
        /\ 0 <= maxPriorityFeePerGas < 2 ^ 128).
Proof.
  assert (Hparse : forall p, 0 <= p ->
            _parseGasFees p = (p / 2 ^ 128, (p mod 2 ^ 128))).
  { intros p Hp. unfold _parseGasFees.
    rewrite Z.shiftr_div_pow2 by lia. f_equal.
    replace MAX_UINT256 with (Z.ones 256) by reflexivity.
    rewrite Z.land_ones, Z.shiftl_mul_pow2, Z.shiftr_div_pow2 by lia.
    replace (2 ^ 256) with (2 ^ 128 * 2 ^ 128) by reflexivity.
    rewrite Z.mul_mod_distr_r by lia.
    apply Z.div_mul. lia. }
  split.
  - intros hi lo Hhi Hlo. rewrite Hparse by nia. f_equal.
    + rewrite Z.div_add_l by lia. rewrite Z.div_small by lia. lia.
    + rewrite Z.add_comm, Z.mod_add by lia. apply Z.mod_small. lia.
  - intros p Hp. rewrite Hparse by lia.
    pose proof (Z.div_mod p (2 ^ 128) ltac:(lia)) as Hdm.
    pose proof (Z.mod_pos_bound p (2 ^ 128) ltac:(lia)) as Hm.
    split; [lia|]. split; [|lia]. split.
    + apply Z.div_pos; lia.
    + apply Z.div_lt_upper_bound; [lia|].
      unfold MAX_UINT256 in Hp.
      replace (2 ^ 128 * 2 ^ 128) with (2 ^ 256) by reflexivity. lia.
Qed.

Lemma decode_first_word a extra :
  0 <= a <= MAX_ADDRESS ->
  abi_decode_address (abi_encode_address a ++ extra) = Ok a.
Proof.
  intros Ha. unfold abi_decode_address, abi_encode_address.
  rewrite length_app, PaymasterSpec.be_encode_length.
  replace (32 + length extra <? 32)%nat with false
    by (symmetry; apply Nat.ltb_ge; lia).
  rewrite take_app_le by (rewrite PaymasterSpec.be_encode_length; lia).
  rewrite take_ge by (rewrite PaymasterSpec.be_encode_length; lia).
  rewrite PaymasterSpec.be_decode_encode.
  assert (Hsmall : a mod 256 ^ Z.of_nat 32 = a).
  { apply Z.mod_small. unfold MAX_ADDRESS in Ha. lia. }
  rewrite Hsmall. rewrite (proj2 (Z.leb_le _ _)) by lia. reflexivity.
Qed.

(** X17: how [postOp] reads its context. A context shorter than one 32-byte
    word makes the call revert with empty data; of a longer context only the
    first word counts: the encoding of an account followed by anything is
    charged to that account. *)
Theorem postOp_context env mode actualGasCost fee st :
  isShutdown st = false ->
  entryPoint st = msg_sender env ->
  (forall context,
     (length context < 32)%nat ->
     postOp env mode context actualGasCost fee st = Reverted (RevertData []))
  /\ (forall account extra,
        0 <= account <= MAX_ADDRESS ->
        usage_of st account + actualGasCost <= MAX_UINT256 ->
        postOp env mode (abi_encode_address account ++ extra) actualGasCost fee st
        = Ok (set_usage account (usage_of st account + actualGasCost) st)).
Proof.
  intros Hopen Hcaller. unfold postOp, notShutdown, require.
  rewrite Hopen, (proj2 (Z.eqb_eq _ _) Hcaller). cbn [negb bind].
  split.
  - intros context Hshort. unfold abi_decode_address.
    rewrite (proj2 (Nat.ltb_lt _ _) Hshort). reflexivity.
  - intros account extra Haccount Hsum.
    rewrite decode_first_word by exact Haccount. cbn [bind].
    unfold checked_add. rewrite (proj2 (Z.leb_le _ _) Hsum). reflexivity.
Qed.

(** X18: a usage counter never wraps: when the recorded usage and the actual
    cost together exceed the largest uint256, [postOp] reverts with the
    arithmetic panic and the counter stays. *)
Theorem postOp_overflow env mode context actualGasCost fee st account :
  isShutdown st = false ->
  entryPoint st = msg_sender env ->
  abi_decode_address context = Ok account ->
  MAX_UINT256 < usage_of st account + actualGasCost ->
  postOp env mode context actualGasCost fee st = Reverted (Panic 17)
  /\ usage_of (transact st (env, PostOp mode context actualGasCost fee)) account
     = usage_of st account.
Proof.
  intros Hopen Hcaller Hdecode Hover.
  assert (Hrun : postOp env mode context actualGasCost fee st = Reverted (Panic 17)).
  { unfold postOp, notShutdown, require, checked_add.
    rewrite Hopen, (proj2 (Z.eqb_eq _ _) Hcaller), Hdecode. cbn [negb bind].
    rewrite (proj2 (Z.leb_gt _ _) Hover). reflexivity. }
  split; [exact Hrun|].
  unfold transact. cbn [fst snd dispatch]. rewrite Hrun. reflexivity.
Qed.

Lemma charges_nonneg a txs :
  Forall (fun tx => well_typed (snd tx)) txs -> 0 <= charges a txs.
Proof.
  induction 1 as [|tx txs Htx _ IH]; cbn [charges foldr]; [lia|].
  fold (charges a txs).
  enough (0 <= charge a tx) by lia.
  unfold charge. destruct (snd tx); try lia.
  destruct (abi_decode_address context) as [b|]; [|lia].
  destruct (b =? a); [|lia]. cbn in Htx. unfold is_uint256 in Htx. lia.
Qed.

Lemma transact_usage env f st a :
  well_typed f ->
  usage_of st a <= usage_of (transact st (env, f)) a <= usage_of st a + charge a (env, f).
Proof.
  intros Htyped. split.
  - unfold transact. cbn [fst snd].
    destruct (dispatch env f st) as [st'|] eqn:Hrun; cbn [commit]; [|lia].
    eapply PaymasterSpec.dispatch_usage_monotone; eassumption.
  - unfold transact, charge. cbn [fst snd].
    destruct f; cbn [dispatch];
      unfold addSponsoredAccount, removeSponsoredAccount, deposit,
        withdrawFromEntryPoint, withdraw, shutdown, transferOwnership,
        renounceOwnership;
      try (destruct (onlyOwner env st); cbn [bind commit]; [|lia]);
      try (destruct (notShutdown st); cbn [bind commit]; [|lia]);
      try (destruct (external_call env); cbn [bind commit]; [|lia]);
      try (cbn [commit]; unfold usage_of; cbn; lia).
    + destruct (validatePaymasterUserOp env userOp userOpHash maxCost st);
        cbn [bind commit]; lia.
    + cbn in Htyped. unfold is_uint256 in Htyped. unfold postOp.
      destruct (notShutdown st); cbn [bind commit];
        [|destruct (abi_decode_address context) as [b|]; [destruct (b =? a)|]; lia].
      destruct (require _ _); cbn [bind commit];
        [|destruct (abi_decode_address context) as [b|]; [destruct (b =? a)|]; lia].
      destruct (abi_decode_address context) as [b|]; cbn [bind commit]; [|lia].
      unfold checked_add.
      destruct (usage_of st b + actualGasCost <=? MAX_UINT256); cbn [bind commit].
      * rewrite PaymasterSpec.usage_of_set_usage.
        destruct (Z.eqb_spec a b) as [->|Hne].
        -- rewrite Z.eqb_refl. lia.
        -- rewrite (proj2 (Z.eqb_neq b a)) by congruence. lia.
      * destruct (b =? a); lia.
    + destruct (newOwner =? 0); cbn [commit]; unfold usage_of; cbn; lia.
Qed.

(** X19: a usage counter moves only by what [postOp] calls ask for. After any
    sequence of calls, by anybody, the usage of an account is at least what
    it was and at most what it was plus the costs of the [postOp] calls whose
    context names that account; a sequence without such a call leaves the
    counter as it is. *)
Theorem usage_bounded_by_charges txs st a :
  Forall (fun tx => well_typed (snd tx)) txs ->
  usage_of st a <= usage_of (run txs st) a <= usage_of st a + charges a txs.
Proof.
  intros Htyped. revert st.
  induction Htyped as [|[env f] txs Htx _ IH]; intros st; cbn [run fold_left].
  - cbn. lia.
  - fold (run txs (transact st (env, f))).
    specialize (IH (transact st (env, f))).
    pose proof (transact_usage env f st a Htx) as Hstep.
    cbn [charges foldr]. fold (charges a txs). lia.
Qed.

Lemma recording_step st tx :
  isShutdown st = false ->
  recording st tx ->
  (forall b, usage_of st b + charge b tx <= MAX_UINT256) ->
  isShutdown (transact st tx) = false
  /\ entryPoint (transact st tx) = entryPoint st
  /\ forall b, usage_of (transact st tx) b = usage_of st b + charge b tx.
Proof.
  intros Hopen [Hcaller Hpost] Hroom. destruct tx as [env f]. cbn [fst snd] in *.
  destruct f; try contradiction.
  destruct Hpost as [[account Hdecode] Hcost].
  unfold transact, charge. cbn [fst snd dispatch].
  unfold postOp, notShutdown, require, checked_add.
  rewrite Hopen, (proj2 (Z.eqb_eq (entryPoint st) (msg_sender env))) by congruence.
  rewrite Hdecode. cbn [negb bind].
  specialize (Hroom account) as Hacc. unfold charge in Hacc. cbn [snd] in Hacc.
  rewrite Hdecode, Z.eqb_refl in Hacc.
  rewrite (proj2 (Z.leb_le _ _) Hacc). cbn [bind commit].
  split; [exact Hopen|]. split; [reflexivity|].
  intros b. rewrite PaymasterSpec.usage_of_set_usage, (Z.eqb_sym account b).
  destruct (Z.eqb_spec b account) as [->|]; lia.
Qed.

(** X20: usage adds up. While the gate is open, a run of [postOp] calls from
    the EntryPoint whose costs fit (no counter would pass the largest
    uint256) all complete, and every account's usage ends at what it was plus
    the sum of the costs charged to it, whatever the order of the calls. *)
Theorem usage_adds_up txs st :
  isShutdown st = false ->
  Forall (recording st) txs ->
  (forall b, usage_of st b + charges b txs <= MAX_UINT256) ->
  forall a, usage_of (run txs st) a = usage_of st a + charges a txs.
Proof.
  intros Hopen Hall. revert st Hopen Hall.
  induction txs as [|tx txs IH]; intros st Hopen Hall Hroom a; cbn [run fold_left].
  - cbn. lia.
  - fold (run txs (transact st tx)).
    apply Forall_cons in Hall as [Htx Hrest].
    assert (Htyped : Forall (fun tx => well_typed (snd tx)) txs).
    { eapply Forall_impl; [exact Hrest|]. intros [env f] [_ Hpost].
      cbn [snd] in *. destruct f; try contradiction. apply Hpost. }
    assert (Hfit : forall b, usage_of st b + charge b tx <= MAX_UINT256).
    { intros b. pose proof (Hroom b) as Hb. cbn [charges foldr] in Hb.
      fold (charges b txs) in Hb.
      pose proof (charges_nonneg b txs Htyped). lia. }
    destruct (recording_step st tx Hopen Htx Hfit) as [Hopen' [Hentry Hstep]].
    rewrite IH.
    + rewrite Hstep. cbn [charges foldr]. fold (charges a txs). lia.
    + exact Hopen'.
    + eapply Forall_impl; [exact Hrest|]. intros tx' [Hc Hp].
      split; [rewrite Hentry; exact Hc | exact Hp].
    + intros b. rewrite Hstep. pose proof (Hroom b) as Hb.
      cbn [charges foldr] in Hb. fold (charges b txs) in Hb. lia.
Qed.

(** X21: what admission looks at. Two operations with the same sender, the
    same pre-verification gas and the same high half of the packed fees get
    the same answer, whatever their hashes, nonces, call data, signatures,
    gas limits and priority fees (the low half of the packed fees) are. *)
Theorem admission_ignores env op1 op2 hash1 hash2 maxCost st :
  sender op1 = sender op2 ->
  preVerificationGas op1 = preVerificationGas op2 ->
  Z.shiftr (gasFees op1) 128 = Z.shiftr (gasFees op2) 128 ->
  validatePaymasterUserOp env op1 hash1 maxCost st
  = validatePaymasterUserOp env op2 hash2 maxCost st.
Proof.
  intros Hsender Hgas Hfee. unfold validatePaymasterUserOp, _parseGasFees.
  rewrite Hsender, Hgas, Hfee. reflexivity.
Qed.

(** X22: a larger deposit or a smaller declared cost never turns an
    admission into a rejection. *)
Theorem admission_monotone env env' userOp userOpHash maxCost maxCost' st r :
  msg_sender env' = msg_sender env ->
  entryPoint_balanceOf env <= entryPoint_balanceOf env' ->
  maxCost' <= maxCost ->
  validatePaymasterUserOp env userOp userOpHash maxCost st = Ok r ->
  validatePaymasterUserOp env' userOp userOpHash maxCost' st = Ok r.
Proof.
  intros Hcaller Hdeposit Hcost. unfold validatePaymasterUserOp. rewrite Hcaller.
  destruct (notShutdown st); cbn [bind]; [|discriminate].
  destruct (require (entryPoint st =? _) _); cbn [bind]; [|discriminate].
  destruct (require (preVerificationGas userOp <=? _) _); cbn [bind]; [|discriminate].
  unfold require at 1 3. rewrite !Z.geb_leb.
  destruct (Z.leb_spec maxCost (entryPoint_balanceOf env)); cbn [bind];
    [|discriminate].
  rewrite (proj2 (Z.leb_le _ _)) by lia. cbn [bind]. trivial.
Qed.

Section Examples.
Import PaymasterDemo Scenes.

Lemma stranger_changes_nothing_witness :
  transact open_gate (as_stranger, Shutdown) = open_gate
  /\ transact open_gate (as_stranger, AddSponsoredAccount 9) = open_gate.
Proof.
  split.
  - apply (stranger_changes_nothing as_stranger Shutdown open_gate);
      vm_compute; discriminate.
  - apply (stranger_changes_nothing as_stranger (AddSponsoredAccount 9) open_gate);
      vm_compute; discriminate.
Defined.

Lemma whitelist_add_remove_witness :
  exists st1 st2,
    addSponsoredAccount as_owner 11 open_gate = Ok st1
    /\ removeSponsoredAccount as_owner 11 st1 = Ok st2
    /\ sponsored st1 11 = true
    /\ sponsored st2 11 = false.
Proof.
  destruct (whitelist_add_remove as_owner 11 open_gate eq_refl)
    as [st1 [st2 [Hadd [Hremove [Hin [Hout _]]]]]].
  exists st1, st2. repeat split; assumption.
Defined.

Lemma parseGasFees_halves_witness : _parseGasFees (5 * 2 ^ 128 + 7) = (5, 7).
Proof.
  apply (proj1 parseGasFees_halves 5 7); lia.
Defined.

Lemma postOp_context_witness :
  postOp (as_entryPoint 0) opSucceeded [Byte.x0a] 21000 0 open_gate
  = Reverted (RevertData [])
  /\ postOp (as_entryPoint 0) opSucceeded (abi_encode_address 10 ++ [Byte.xff])
       21000 0 open_gate
     = Ok (set_usage 10 (usage_of open_gate 10 + 21000) open_gate).
Proof.
  destruct (postOp_context (as_entryPoint 0) opSucceeded 21000 0 open_gate
              eq_refl eq_refl) as [Hshort Hlong].
  split.
  - apply Hshort. vm_compute. lia.
  - apply Hlong; [split|]; vm_compute; discriminate.
Defined.

Lemma postOp_overflow_witness :
  MAX_UINT256 < usage_of saturated 10 + 1
  /\ postOp (as_entryPoint 0) opSucceeded (abi_encode_address 10) 1 0 saturated
     = Reverted (Panic 17).
Proof.
  assert (Hover : MAX_UINT256 < usage_of saturated 10 + 1) by (vm_compute; reflexivity).
  split; [exact Hover|].
  apply (proj1 (postOp_overflow (as_entryPoint 0) opSucceeded (abi_encode_address 10)
                  1 0 saturated 10 eq_refl eq_refl eq_refl Hover)).
Defined.

Lemma usage_bounded_by_charges_witness :
  usage_of open_gate 10
  <= usage_of (run [record_usage 10 5; (as_stranger, Shutdown); record_usage 11 7]
                 open_gate) 10
  <= usage_of open_gate 10 + 5.
Proof.
  apply (usage_bounded_by_charges
           [record_usage 10 5; (as_stranger, Shutdown); record_usage 11 7]
           open_gate 10).
  repeat constructor; vm_compute; discriminate.
Defined.

Lemma usage_adds_up_witness :
  usage_of (run [record_usage 10 5; record_usage 11 7; record_usage 10 8] open_gate) 10
  = 13.
Proof.
  rewrite (usage_adds_up
             [record_usage 10 5; record_usage 11 7; record_usage 10 8] open_gate
             eq_refl).
  - reflexivity.
  - repeat constructor; try (eexists; reflexivity); vm_compute; discriminate.
  - intros b. unfold charges, charge, record_usage. cbn [foldr snd].
    change (abi_decode_address (abi_encode_address 10)) with (@Ok Z 10).
    change (abi_decode_address (abi_encode_address 11)) with (@Ok Z 11).
    unfold usage_of, mapping_get, open_gate. cbn.
    rewrite lookup_empty. cbn [default].
    unfold MAX_UINT256.
    repeat match goal with
           | |- context [if ?test then _ else _] => destruct test
           end; lia.
Defined.

Lemma admission_ignores_witness :
  validatePaymasterUserOp (as_entryPoint 5000) (op 5) 1 1000 open_gate
  = validatePaymasterUserOp (as_entryPoint 5000) other_op 2 1000 open_gate.
Proof.
  apply (admission_ignores (as_entryPoint 5000) (op 5) other_op 1 2 1000 open_gate);
    reflexivity.
Defined.

Lemma admission_monotone_witness :
  validatePaymasterUserOp (as_entryPoint 9000) (op 5) 0 500 open_gate
  = Ok (abi_encode_address 10, 0).
Proof.
  apply (admission_monotone (as_entryPoint 1000) (as_entryPoint 9000) (op 5) 0
           1000 500 open_gate).
  - reflexivity.
  - vm_compute. discriminate.
  - vm_compute. discriminate.
  - reflexivity.
Defined.

End Examples.

End PaymasterExtra.

(** * Properties of AccountFactory.sol *)
Module AccountFactorySpec.
Import AccountFactory.

Section Registry.
Variable keccak256 : string -> Z.

Lemma createAccount_ok created email merchant c a c' :
  createAccount keccak256 created email merchant c = Ok (a, c') ->
  account_of_hash (factory c) (keccak256 email) = 0
  /\ a = created /\ created <> 0
  /\ accounts c !! created = None
  /\ accountsByEmailHash (factory c')
     = <[keccak256 email := created]> (accountsByEmailHash (factory c))
  /\ accountsByMerchantAddress (factory c')
     = <[merchant := created]> (accountsByMerchantAddress (factory c))
  /\ platformSigner (factory c') = platformSigner (factory c)
  /\ logs (factory c')
     = logs (factory c) ++ [AccountCreated (keccak256 email) created merchant]
  /\ accounts c'
     = <[created := Account.constructor (entryPoint (factory c))
                      (platformSigner (factory c)) merchant email]> (accounts c).
Proof.
  unfold createAccount, require, new_Account.
  destruct (Z.eqb_spec (account_of_hash (factory c) (keccak256 email)) 0)
    as [Hfree|]; cbn [bind]; [|discriminate].
  destruct (Z.eqb_spec created 0) as [|Hcreated]; cbn [bind]; [discriminate|].
  destruct (accounts c !! created) eqn:Hnew; cbn [bind fst snd]; [discriminate|].
  intros [= <- <-]. cbn. repeat split; assumption.
Qed.

Lemma account_of_hash_insert st st' h a h' :
  accountsByEmailHash st' = <[h := a]> (accountsByEmailHash st) ->
  account_of_hash st' h' = if h' =? h then a else account_of_hash st h'.
Proof.
  intros Hmap. unfold account_of_hash, mapping_get. rewrite Hmap.
  destruct (Z.eqb_spec h' h) as [->|Hne].
  - rewrite lookup_insert_eq. reflexivity.
  - rewrite lookup_insert_ne by congruence. reflexivity.
Qed.

Lemma createAccount_keeps created email merchant c a c' h :
  account_of_hash (factory c) h <> 0 ->
  createAccount keccak256 created email merchant c = Ok (a, c') ->
  account_of_hash (factory c') h = account_of_hash (factory c) h.
Proof.
  intros Htaken Hrun.
  destruct (createAccount_ok _ _ _ _ _ _ Hrun) as [Hfree [_ [_ [_ [Hmap _]]]]].
  rewrite (account_of_hash_insert _ _ _ _ h Hmap).
  destruct (Z.eqb_spec h (keccak256 email)); [congruence|reflexivity].
Qed.

Lemma batch_loop_keeps env i remaining merchants c created c' h :
  account_of_hash (factory c) h <> 0 ->
  batch_loop keccak256 env i remaining merchants c = Ok (created, c') ->
  account_of_hash (factory c') h = account_of_hash (factory c) h.
Proof.
  revert i c created.
  induction remaining as [|email rest IH]; intros i c created Htaken;
    cbn [batch_loop].
  - intros [= _ <-]. reflexivity.
  - destruct (merchants !! i) as [m|]; cbn [bind]; [|discriminate].
    destruct (createAccount keccak256 (deployed env i) email m c)
      as [[a c1]|] eqn:Hcreate; cbn [bind fst snd]; [|discriminate].
    destruct (batch_loop keccak256 env (S i) rest merchants c1)
      as [[more c2]|] eqn:Hloop; cbn [bind fst snd]; [|discriminate].
    intros [= _ <-].
    pose proof (createAccount_keeps _ _ _ _ _ _ h Htaken Hcreate) as Hstep.
    rewrite <- Hstep. eapply IH; [|exact Hloop]. congruence.
Qed.

Lemma batch_loop_ok env i remaining merchants c created c' :
  batch_loop keccak256 env i remaining merchants c = Ok (created, c') ->
  length created = length remaining
  /\ (remaining = [] \/ (i + length remaining <= length merchants)%nat)
  /\ NoDup (keccak256 <$> remaining)
  /\ forall j email,
       remaining !! j = Some email ->
       account_of_hash (factory c) (keccak256 email) = 0
       /\ deployed env (i + j) <> 0
       /\ created !! j = Some (deployed env (i + j))
       /\ account_of_hash (factory c') (keccak256 email) = deployed env (i + j).
Proof.
  revert i c created.
  induction remaining as [|email rest IH]; intros i c created; cbn [batch_loop].
  - intros [= <- <-]. split; [reflexivity|]. split; [left; reflexivity|].
    split; [constructor|]. intros j e Hj. discriminate.
  - destruct (merchants !! i) as [m|] eqn:Hm; cbn [bind]; [|discriminate].
    destruct (createAccount keccak256 (deployed env i) email m c)
      as [[a c1]|] eqn:Hcreate; cbn [bind fst snd]; [|discriminate].
    destruct (batch_loop keccak256 env (S i) rest merchants c1)
      as [[more c2]|] eqn:Hloop; cbn [bind fst snd]; [|discriminate].
    intros [= <- <-].
    destruct (createAccount_ok _ _ _ _ _ _ Hcreate)
      as [Hfree [-> [Hcreated [_ [Hmap _]]]]].
    destruct (IH _ _ _ Hloop) as [Hlen [Hbound [Hnodup Hrest]]].
    pose proof (account_of_hash_insert _ _ _ _ (keccak256 email) Hmap) as Hhere.
    rewrite Z.eqb_refl in Hhere.
    assert (Hfresh : forall j e, rest !! j = Some e -> keccak256 e <> keccak256 email).
    { intros j e Hj Heq. destruct (Hrest j e Hj) as [Hzero _].
      rewrite Heq in Hzero. congruence. }
    split; [cbn [length]; congruence|]. split.
    { right. apply lookup_lt_Some in Hm. cbn [length].
      destruct Hbound as [->|Hb]; cbn [length]; lia. }
    split.
    { cbn [fmap list_fmap]. apply NoDup_cons. split; [|exact Hnodup].
      intros Hin. apply list_elem_of_fmap in Hin as [e [Heq He]].
      apply list_elem_of_lookup in He as [j Hj].
      apply (Hfresh j e Hj). congruence. }
    intros [|j] e Hj; cbn in Hj.
    + injection Hj as <-. rewrite Nat.add_0_r.
      split; [exact Hfree|]. split; [exact Hcreated|]. split; [reflexivity|].
      rewrite <- Hhere. eapply batch_loop_keeps; [|exact Hloop]. congruence.
    + destruct (Hrest j e Hj) as [Hzero [Hnz [Hacc Hreg]]].
      rewrite Nat.add_succ_r. cbn [Nat.add] in *.
      split; [|split; [exact Hnz|split; [exact Hacc|exact Hreg]]].
      rewrite (account_of_hash_insert _ _ _ _ (keccak256 e) Hmap) in Hzero.
      rewrite (proj2 (Z.eqb_neq _ _) (Hfresh j e Hj)) in Hzero. exact Hzero.
Qed.

(** X23: an e-mail address is registered once. After [createAccount] has
    succeeded for an address, every further [createAccount] for it (for any
    address with the same hash) is refused with "Account already exists",
    whoever asks, for whatever merchant. *)
Theorem createAccount_once created email merchant c a c' :
  createAccount keccak256 created email merchant c = Ok (a, c') ->
  forall created' email' merchant',
    keccak256 email' = keccak256 email ->
    createAccount keccak256 created' email' merchant' c'
    = Reverted (Error "Account already exists").
Proof.
  intros Hrun created' email' merchant' Hsame.
  destruct (createAccount_ok _ _ _ _ _ _ Hrun) as [_ [_ [Hcreated [_ [Hmap _]]]]].
  unfold createAccount, require.
  rewrite Hsame, (account_of_hash_insert _ _ _ _ (keccak256 email) Hmap), Z.eqb_refl.
  rewrite (proj2 (Z.eqb_neq _ _) Hcreated). reflexivity.
Qed.

(** X24: a created account is found again. A successful [createAccount]
    returns the address of the new, non-zero account for an e-mail address
    that had none; the account starts with the factory's EntryPoint and
    platform signer, the given merchant and e-mail address, and a count of
    zero; afterwards [getAccounts] of that address and
    [getAccountByMerchantAddress] of the merchant both give the new account,
    and the answers for every other hash and every other merchant are as
    before. *)
Theorem createAccount_registers created email merchant c a c' :
  createAccount keccak256 created email merchant c = Ok (a, c') ->
  getAccounts keccak256 email (factory c) = 0
  /\ a = created /\ a <> 0
  /\ accounts c' !! a
     = Some {| Account.count := 0;
               Account.platformSigner := platformSigner (factory c);
               Account.merchantAddress := merchant;
               Account.userEmail := email;
               Account.entryPoint := entryPoint (factory c) |}
  /\ getAccounts keccak256 email (factory c') = a
  /\ getAccountByMerchantAddress merchant (factory c') = a
  /\ (forall email', keccak256 email' <> keccak256 email ->
        getAccounts keccak256 email' (factory c')
        = getAccounts keccak256 email' (factory c))
  /\ (forall merchant', merchant' <> merchant ->
        getAccountByMerchantAddress merchant' (factory c')
        = getAccountByMerchantAddress merchant' (factory c)).
Proof.
  intros Hrun.
  destruct (createAccount_ok _ _ _ _ _ _ Hrun)
    as [Hfree [-> [Hcreated [_ [Hmap [Hmerchants [_ [_ Haccounts]]]]]]]].
  unfold getAccounts, getAccountByMerchantAddress, account_of_merchant, mapping_get.
  split; [exact Hfree|]. split; [reflexivity|]. split; [exact Hcreated|].
  split; [rewrite Haccounts, lookup_insert_eq; reflexivity|].
  split; [rewrite (account_of_hash_insert _ _ _ _ _ Hmap), Z.eqb_refl; reflexivity|].
  split; [rewrite Hmerchants, lookup_insert_eq; reflexivity|].
  split.
  - intros email' Hne. rewrite (account_of_hash_insert _ _ _ _ _ Hmap).
    rewrite (proj2 (Z.eqb_neq _ _) Hne). reflexivity.
  - intros merchant' Hne. rewrite Hmerchants, lookup_insert_ne by congruence.
    reflexivity.
Qed.

(** X25: the merchant index keeps the latest account only. When two accounts
    are created for the same merchant, [getAccountByMerchantAddress] answers
    with the second, while the first is still found under its e-mail
    address. *)
Theorem merchant_index_keeps_latest created1 created2 email1 email2 merchant
    c a1 c1 a2 c2 :
  createAccount keccak256 created1 email1 merchant c = Ok (a1, c1) ->
  createAccount keccak256 created2 email2 merchant c1 = Ok (a2, c2) ->
  getAccountByMerchantAddress merchant (factory c2) = a2
  /\ getAccounts keccak256 email1 (factory c2) = a1
  /\ getAccounts keccak256 email2 (factory c2) = a2.
Proof.
  intros Hfirst Hsecond.
  destruct (createAccount_ok _ _ _ _ _ _ Hfirst)
    as [_ [-> [Hc1 [_ [Hmap1 _]]]]].
  destruct (createAccount_ok _ _ _ _ _ _ Hsecond)
    as [Hfree2 [-> [_ [_ [Hmap2 [Hmerchants2 _]]]]]].
  pose proof (account_of_hash_insert _ _ _ _ (keccak256 email1) Hmap1) as Hreg1.
  rewrite Z.eqb_refl in Hreg1.
  unfold getAccounts, getAccountByMerchantAddress, account_of_merchant, mapping_get.
  split; [rewrite Hmerchants2, lookup_insert_eq; reflexivity|]. split.
  - rewrite (account_of_hash_insert _ _ _ _ _ Hmap2).
    destruct (Z.eqb_spec (keccak256 email1) (keccak256 email2)) as [Heq|];
      [|exact Hreg1].
    rewrite <- Heq in Hfree2. congruence.
  - rewrite (account_of_hash_insert _ _ _ _ _ Hmap2), Z.eqb_refl. reflexivity.
Qed.

Lemma dispatch_keeps env f c c' h :
  account_of_hash (factory c) h <> 0 ->
  dispatch keccak256 env f c = Ok c' ->
  account_of_hash (factory c') h = account_of_hash (factory c) h.
Proof.
  intros Htaken. destruct f; cbn [dispatch].
  - unfold updatePlatformSigner.
    destruct (require _ _); cbn [bind]; [|discriminate].
    intros [= <-]. reflexivity.
  - destruct (createAccount keccak256 _ _email _merchantAddress c)
      as [[a c1]|] eqn:Hrun; cbn [bind snd]; [|discriminate].
    intros [= <-]. eapply createAccount_keeps; eassumption.
  - unfold batchCreateAccounts.
    destruct (batch_loop keccak256 env 0 _emails _merchantAddresses c)
      as [[created c1]|] eqn:Hrun; cbn [bind snd]; [|discriminate].
    intros [= <-]. eapply batch_loop_keeps; eassumption.
  - intros [= <-]. reflexivity.
  - intros [= <-]. reflexivity.
Qed.

(** X26: a registration is for good. Once an e-mail hash has an account,
    no sequence of calls to the factory, by anybody, changes or removes
    it. *)
Theorem registration_is_permanent txs c emailHash :
  account_of_hash (factory c) emailHash <> 0 ->
  account_of_hash (factory (run keccak256 txs c)) emailHash
  = account_of_hash (factory c) emailHash.
Proof.
  revert c. induction txs as [|tx txs IH]; intros c Htaken; cbn [run fold_left].
  - reflexivity.
  - fold (run keccak256 txs (transact keccak256 c tx)).
    assert (Hstep : account_of_hash (factory (transact keccak256 c tx)) emailHash
                    = account_of_hash (factory c) emailHash).
    { unfold transact.
      destruct (dispatch keccak256 (fst tx) (snd tx) c) as [c'|] eqn:Hrun;
        cbn [commit]; [|reflexivity].
      eapply dispatch_keeps; eassumption. }
    rewrite IH by congruence. exact Hstep.
Qed.

(** X27: what a successful batch has done. It returns one account for each
    e-mail address, in order: the [i]-th is the [i]-th contract created by
    the call, is not zero, and is what [getAccounts] answers for the [i]-th
    address afterwards. This takes a merchant for every e-mail address,
    e-mail addresses with hashes all different, and none of them registered
    before. *)
Theorem batchCreateAccounts_success env emails merchants c created c' :
  batchCreateAccounts keccak256 env emails merchants c = Ok (created, c') ->
  length created = length emails
  /\ (length emails <= length merchants)%nat
  /\ NoDup (keccak256 <$> emails)
  /\ forall i email,
       emails !! i = Some email ->
       getAccounts keccak256 email (factory c) = 0
       /\ deployed env i <> 0
       /\ created !! i = Some (deployed env i)
       /\ getAccounts keccak256 email (factory c') = deployed env i.
Proof.
  unfold batchCreateAccounts, getAccounts. intros Hrun.
  destruct (batch_loop_ok _ _ _ _ _ _ _ Hrun) as [Hlen [Hbound [Hnodup Hall]]].
  split; [exact Hlen|]. split.
  { destruct Hbound as [->|Hb]; cbn [length]; lia. }
  split; [exact Hnodup|]. exact Hall.
Qed.

(** X28: a batch is all or nothing, and needs a merchant for every e-mail
    address: with fewer merchants than addresses the call reverts, and so it
    does when an address of the batch is registered already; in both cases
    the factory and the accounts on the chain are left as they were, the
    accounts created before the failure included. *)
Theorem batchCreateAccounts_all_or_nothing env emails merchants c :
  ((length merchants < length emails)%nat
   \/ exists email, email ∈ emails /\ getAccounts keccak256 email (factory c) <> 0) ->
  (exists failure,
     batchCreateAccounts keccak256 env emails merchants c = Reverted failure)
  /\ transact keccak256 c (env, BatchCreateAccounts emails merchants) = c.
Proof.
  intros Hbad.
  assert (Hfail : exists failure,
            batchCreateAccounts keccak256 env emails merchants c = Reverted failure).
  { destruct (batchCreateAccounts keccak256 env emails merchants c)
      as [[created c']|failure] eqn:Hrun; [|eexists; reflexivity].
    exfalso. unfold batchCreateAccounts in Hrun.
    destruct (batch_loop_ok _ _ _ _ _ _ _ Hrun) as [_ [Hbound [_ Hall]]].
    destruct Hbad as [Hshort|[email [Hin Htaken]]].
    - destruct Hbound as [->|Hb]; cbn [length] in *; lia.
    - apply list_elem_of_lookup in Hin as [i Hi].
      destruct (Hall i email Hi) as [Hzero _]. exact (Htaken Hzero). }
  split; [exact Hfail|].
  destruct Hfail as [failure Hrun]. unfold transact. cbn [fst snd dispatch].
  rewrite Hrun. reflexivity.
Qed.

(** X29: only the platform signer hands the role over. The call of anybody
    else is refused with "Not authorized"; the signer's call installs the
    new signer and leaves the registry alone, and from then on the old
    signer is refused like anybody else. *)
Theorem updatePlatformSigner_handover env newSigner st :
  (msg_sender env <> platformSigner st ->
   updatePlatformSigner env newSigner st = Reverted (Error "Not authorized"))
  /\ (msg_sender env = platformSigner st ->
      exists st',
        updatePlatformSigner env newSigner st = Ok st'
        /\ platformSigner st' = newSigner
        /\ accountsByEmailHash st' = accountsByEmailHash st
        /\ accountsByMerchantAddress st' = accountsByMerchantAddress st
        /\ (newSigner <> msg_sender env ->
            forall next,
              updatePlatformSigner env next st' = Reverted (Error "Not authorized"))).
Proof.
  unfold updatePlatformSigner, require. split.
  - intros Hother. rewrite (proj2 (Z.eqb_neq _ _) Hother). reflexivity.
  - intros Hsigner. rewrite (proj2 (Z.eqb_eq _ _) Hsigner). cbn [bind].
    eexists. split; [reflexivity|]. cbn. repeat split.
    intros Hnew next. rewrite (proj2 (Z.eqb_neq _ _)) by congruence. reflexivity.
Qed.

End Registry.

Section Examples.
Import AccountFactoryDemo.

Lemma createAccount_once_witness :
  exists c',
    createAccount toy_hash 100 "a@x" 50 fresh_chain = Ok (100, c')
    /\ createAccount toy_hash 101 "a@x" 51 c'
       = Reverted (Error "Account already exists").
Proof.
  eexists. split; [reflexivity|].
  apply (createAccount_once toy_hash 100 "a@x" 50 fresh_chain 100 _ eq_refl
           101 "a@x" 51 eq_refl).
Defined.

Lemma createAccount_registers_witness :
  exists c',
    createAccount toy_hash 100 "a@x" 50 fresh_chain = Ok (100, c')
    /\ getAccounts toy_hash "a@x" (factory c') = 100
    /\ getAccountByMerchantAddress 50 (factory c') = 100.
Proof.
  eexists. split; [reflexivity|].
  destruct (createAccount_registers toy_hash 100 "a@x" 50 fresh_chain 100 _ eq_refl)
    as [_ [_ [_ [_ [Hmail [Hmerchant _]]]]]].
  split; [exact Hmail | exact Hmerchant].
Defined.

Lemma merchant_index_keeps_latest_witness :
  exists c1 c2,
    createAccount toy_hash 100 "a@x" 50 fresh_chain = Ok (100, c1)
    /\ createAccount toy_hash 101 "bb@y" 50 c1 = Ok (101, c2)
    /\ getAccountByMerchantAddress 50 (factory c2) = 101
    /\ getAccounts toy_hash "a@x" (factory c2) = 100.
Proof.
  do 2 eexists. split; [reflexivity|]. split; [reflexivity|].
  destruct (merchant_index_keeps_latest toy_hash 100 101 "a@x" "bb@y" 50 fresh_chain
              100 _ 101 _ eq_refl eq_refl) as [Hmerchant [Hfirst _]].
  split; [exact Hmerchant | exact Hfirst].
Defined.

Lemma registration_is_permanent_witness :
  exists c1,
    createAccount toy_hash 100 "a@x" 50 fresh_chain = Ok (100, c1)
    /\ account_of_hash
         (factory
            (run toy_hash [(anybody, CreateAccount "bb@y" 50);
                           (anybody, BatchCreateAccounts ["a@x"; "cccc@z"] [51; 52])]
               c1)) (toy_hash "a@x")
       = 100.
Proof.
  eexists. split; [reflexivity|].
  rewrite (registration_is_permanent toy_hash).
  - reflexivity.
  - vm_compute. discriminate.
Defined.

Lemma batchCreateAccounts_success_witness :
  exists c',
    batchCreateAccounts toy_hash anybody ["a@x"; "bb@y"] [50; 51; 52] fresh_chain
    = Ok ([100; 101], c')
    /\ getAccounts toy_hash "bb@y" (factory c') = 101.
Proof.
  eexists. split; [reflexivity|].
  destruct (batchCreateAccounts_success toy_hash anybody ["a@x"; "bb@y"] [50; 51; 52]
              fresh_chain [100; 101] _ eq_refl) as [_ [_ [_ Hall]]].
  destruct (Hall 1%nat "bb@y" eq_refl) as [_ [_ [_ Hfound]]].
  exact Hfound.
Defined.

Lemma batchCreateAccounts_all_or_nothing_witness :
  transact toy_hash fresh_chain (anybody, BatchCreateAccounts ["a@x"; "bb@y"] [50])
  = fresh_chain.
Proof.
  assert (Hshort : (length [50] < length ["a@x"; "bb@y"])%nat) by (cbn; lia).
  apply (proj2 (batchCreateAccounts_all_or_nothing toy_hash anybody
                  ["a@x"; "bb@y"] [50] fresh_chain (or_introl Hshort))).
Defined.

Lemma updatePlatformSigner_handover_witness :
  updatePlatformSigner anybody 9 fresh = Reverted (Error "Not authorized").
Proof.
  apply (proj1 (updatePlatformSigner_handover anybody 9 fresh)).
  vm_compute. discriminate.
Defined.

End Examples.
End AccountFactorySpec.
